(** * owtorg/logger: a shallow embedding of the logging facade

    The Go package [logger] offers one interface, [Logger], three backends
    ([FmtLog], [StdLog], [FileLog]) and a composite, [Stack], that fans every
    call out to its members.  This file embeds the package as Rocq functions
    over an explicit world (object store, file system, the process-global
    standard logger and an I/O trace) and proves properties of it.

    Layout: the host runtime (values, store, packages fmt, log and os), the
    package itself (logger.go and the source file of Stack), the vocabulary
    of the statements, the environment of the test file, and the theorems. *)

From Stdlib Require Import ZArith String Ascii List DecimalString.
From stdpp Require Import base option list gmap strings.

Open Scope string_scope.
Open Scope list_scope.

(** ** Go values *)

Definition loc := nat.
Definition fid := nat.
Definition handle := nat.

(** The four struct types of the package; [*T] implements Logger for each. *)
Inductive kind := KFmtLog | KStdLog | KFileLog | KStack.

(** Dynamic types of function values, as far as the type assertions in
    the Init methods can tell them apart. *)
Inductive signature :=
| SigFmtLog    (* func(s *FmtLog) *)
| SigStdLog    (* func(s *StdLog) *)
| SigFileLog   (* func(s *FileLog) *)
| SigLogger    (* func(s Logger) *)
| SigStack     (* func(s *Stack) *)
| SigOther.    (* any other function type *)

(** A value of type [interface{}].  Slices are immutable lists: the sharing of
    backing arrays between slices is not modelled.  Pointers are to the four
    structs of the package, which are the implementations of Logger the
    package knows. *)
Inductive value :=
| VNil                                  (* the nil interface value *)
| VString (s : string)
| VInt (z : Z)
| VBool (b : bool)
| VFunc (sig : signature) (g : fid)     (* a function value of dynamic type sig *)
| VRef (k : kind) (l : loc).            (* a pointer *T to the object stored at l *)

Global Instance kind_eq_dec : EqDecision kind.
Proof. solve_decision. Defined.
Global Instance signature_eq_dec : EqDecision signature.
Proof. solve_decision. Defined.
Global Instance value_eq_dec : EqDecision value.
Proof. solve_decision. Defined.

(** A non-nil value of interface type [Logger]: a pointer to one of the four
    structs. *)
Definition Logger : Type := kind * loc.

Definition Logger_value (lg : Logger) : value := VRef lg.1 lg.2.

(** Go's [error]: nil or a message. *)
Definition error := option string.

(** ** Structs of the package *)

Record LogBase := mkLogBase { initializers : list value }.

Record FmtLog := mkFmtLog { FmtLog_LogBase : LogBase }.

Record StdLog := mkStdLog { StdLog_LogBase : LogBase }.

Record FileLog := mkFileLog {
  FileLog_LogBase : LogBase;
  f : option handle;
  logPath : string
}.

Record Stack := mkStack {
  Stack_LogBase : LogBase;
  loggers : list value
}.

Inductive obj :=
| OFmtLog (o : FmtLog)
| OStdLog (o : StdLog)
| OFileLog (o : FileLog)
| OStack (o : Stack).

(** ** The world *)

Inductive writer :=
| Stdout
| Stderr
| FileW (h : handle)      (* an os.File *)
| OtherW (id : nat).      (* any other io.Writer, e.g. a bytes.Buffer *)

Inductive node :=
| NFile (content : string)
| NDenied.                (* a path that cannot be opened for append *)

Inductive event :=
| EvOpen (path : string) (h : handle)
| EvWrite (to : writer) (data : string) (ok : bool)
| EvClose (h : handle).

Global Instance node_eq_dec : EqDecision node.
Proof. solve_decision. Defined.
Global Instance writer_eq_dec : EqDecision writer.
Proof. solve_decision. Defined.
Global Instance event_eq_dec : EqDecision event.
Proof. solve_decision. Defined.

Record World := mkWorld {
  heap : gmap loc obj;             (* objects behind pointers *)
  fs : gmap string node;           (* the file system *)
  fds : list (string * bool);      (* os.File table: path, still open? *)
  log_out : writer;                (* package log: output of the std logger *)
  log_flags : Z;                   (* package log: flags of the std logger *)
  log_prefix : string;             (* package log: prefix of the std logger *)
  trace : list event               (* system calls issued so far *)
}.

Definition set_heap (hp : gmap loc obj) (w : World) : World :=
  mkWorld hp (fs w) (fds w) (log_out w) (log_flags w) (log_prefix w) (trace w).

Definition set_fs (m : gmap string node) (w : World) : World :=
  mkWorld (heap w) m (fds w) (log_out w) (log_flags w) (log_prefix w) (trace w).

Definition set_fds (t : list (string * bool)) (w : World) : World :=
  mkWorld (heap w) (fs w) t (log_out w) (log_flags w) (log_prefix w) (trace w).

Definition set_log_out (o : writer) (w : World) : World :=
  mkWorld (heap w) (fs w) (fds w) o (log_flags w) (log_prefix w) (trace w).

Definition emit (e : event) (w : World) : World :=
  mkWorld (heap w) (fs w) (fds w) (log_out w) (log_flags w) (log_prefix w)
          (trace w ++ [e]).

(** ** Results: normal return, panic, or fuel exhausted *)

Inductive panic :=
| PTypeAssert (v : value)   (* interface conversion failed on v *)
| PNilDeref                 (* nil pointer dereference *)
| PValue (v : value)        (* panic(v) *)
| PHost (msg : string).     (* a panic raised inside a callback *)

Inductive Res (A : Type) :=
| Ok (a : A)
| Panic (p : panic) (w : World)
| OutOfFuel.

Arguments Ok {A} a.
Arguments Panic {A} p w.
Arguments OutOfFuel {A}.

Global Instance Res_ret : MRet Res := fun A a => Ok a.

Global Instance Res_bind : MBind Res := fun A B k m =>
  match m with
  | Ok a => k a
  | Panic p w => Panic p w
  | OutOfFuel => OutOfFuel
  end.

(** ** The host: what the package calls but does not define *)

Class Host := {
  (** the body of function value [g] applied to its single argument *)
  call : fid -> value -> World -> Res World;
  (** package log: the date, time and file fields selected by the flags *)
  stamp : Z -> string;
  (** package fmt: how a pointer or function address prints under %v *)
  fmtPointer : value -> string
}.

(** *** Package fmt *)

Definition nl : string := String (ascii_of_nat 10) EmptyString.

Definition formatInt (z : Z) : string := NilZero.string_of_int (Z.to_int z).

(** [%v] of one element of a [[]interface{}]. *)
Definition formatValue `{Host} (v : value) : string :=
  match v with
  | VNil => "<nil>"
  | VString s => s
  | VInt z => formatInt z
  | VBool true => "true"
  | VBool false => "false"
  | VFunc _ _ => fmtPointer v
  | VRef _ _ => fmtPointer v
  end.

(** [%v] of a slice: the elements between brackets, separated by spaces. *)
Definition formatSlice `{Host} (v : list value) : string :=
  "[" +:+ String.concat " " (map formatValue v) +:+ "]".

(** [fmt.Sprintln(level, v)] for a string and a slice: operands separated by
    a space, a newline appended. *)
Definition Sprintln `{Host} (level : string) (v : list value) : string :=
  level +:+ " " +:+ formatSlice v +:+ nl.

(** *** Package os *)

(** [os.OpenFile(path, O_RDWR|O_CREATE|O_APPEND, 0666)]; [None] is an error.
    The empty path (the zero value of [logPath]) and a denied path cannot be
    opened; a missing file is created empty; the handle is the next free
    index of the table. *)
Definition os_OpenFile (path : string) (w : World) : option (handle * World) :=
  if decide (path = "") then None else
  match fs w !! path with
  | Some NDenied => None
  | Some (NFile _) =>
      let h := length (fds w) in
      Some (h, emit (EvOpen path h) (set_fds (fds w ++ [(path, true)]) w))
  | None =>
      let h := length (fds w) in
      Some (h, emit (EvOpen path h)
                 (set_fds (fds w ++ [(path, true)])
                    (set_fs (<[path := NFile ""]> (fs w)) w)))
  end.

(** [Close] of an os.File; its error is dropped by the caller. *)
Definition os_Close (h : handle) (w : World) : World :=
  emit (EvClose h)
    (set_fds (alter (fun e : string * bool => (e.1, false)) h (fds w)) w).

Definition file_content (n : option node) : string :=
  match n with Some (NFile c) => c | _ => "" end.

(** One [Write] call on a writer.  A write on a closed file fails and leaves
    the file as it is; the standard streams and other writers accept it. *)
Definition write (to : writer) (data : string) (w : World) : World :=
  match to with
  | FileW h =>
      match fds w !! h with
      | Some (path, true) =>
          emit (EvWrite to data true)
            (set_fs (<[path := NFile (file_content (fs w !! path) +:+ data)]> (fs w)) w)
      | _ => emit (EvWrite to data false) w
      end
  | _ => emit (EvWrite to data true) w
  end.

(** [fmt.Println(level, v)] *)
Definition fmt_Println `{Host} (level : string) (v : list value) (w : World) : World :=
  write Stdout (Sprintln level v) w.

(** *** Package log *)

Definition Ldate : Z := 1%Z.
Definition Ltime : Z := 2%Z.
Definition Lmicroseconds : Z := 4%Z.
Definition Llongfile : Z := 8%Z.
Definition Lshortfile : Z := 16%Z.
Definition Lmsgprefix : Z := 64%Z.
Definition LstdFlags : Z := Z.lor Ldate Ltime.

Definition Lfields : Z :=
  Z.lor Ldate (Z.lor Ltime (Z.lor Lmicroseconds (Z.lor Llongfile Lshortfile))).

(** The header the std logger puts before each message. *)
Definition formatHeader `{Host} (flags : Z) (prefix : string) : string :=
  (if (Z.land flags Lmsgprefix =? 0)%Z then prefix else "")
  +:+ (if (Z.land flags Lfields =? 0)%Z then "" else stamp flags)
  +:+ (if (Z.land flags Lmsgprefix =? 0)%Z then "" else prefix).

Definition log_SetOutput (o : writer) (w : World) : World := set_log_out o w.

Definition log_SetFlags (fl : Z) (w : World) : World :=
  mkWorld (heap w) (fs w) (fds w) (log_out w) fl (log_prefix w) (trace w).

(** [log.Println(level, v)]: header and message go out in one Write, whose
    error is dropped. *)
Definition log_Println `{Host} (level : string) (v : list value) (w : World) : World :=
  write (log_out w)
        (formatHeader (log_flags w) (log_prefix w) +:+ Sprintln level v) w.

(** ** logger.go *)

Definition kind_of (o : obj) : kind :=
  match o with
  | OFmtLog _ => KFmtLog
  | OStdLog _ => KStdLog
  | OFileLog _ => KFileLog
  | OStack _ => KStack
  end.

Definition getFmtLog (w : World) (s : loc) : option FmtLog :=
  match heap w !! s with Some (OFmtLog o) => Some o | _ => None end.

Definition getStdLog (w : World) (s : loc) : option StdLog :=
  match heap w !! s with Some (OStdLog o) => Some o | _ => None end.

Definition getFileLog (w : World) (s : loc) : option FileLog :=
  match heap w !! s with Some (OFileLog o) => Some o | _ => None end.

Definition getStack (w : World) (s : loc) : option Stack :=
  match heap w !! s with Some (OStack o) => Some o | _ => None end.

(** The object a [Logger] points to; a pointer with nothing of its type
    behind it stands for a nil pointer. *)
Definition deref (lg : Logger) (w : World) : option obj :=
  match heap w !! lg.2 with
  | Some o => if decide (kind_of o = lg.1) then Some o else None
  | None => None
  end.

Definition store (s : loc) (o : obj) (w : World) : World :=
  set_heap (<[s := o]> (heap w)) w.

(** The embedded [LogBase] of each struct. *)
Definition base (o : obj) : LogBase :=
  match o with
  | OFmtLog o => FmtLog_LogBase o
  | OStdLog o => StdLog_LogBase o
  | OFileLog o => FileLog_LogBase o
  | OStack o => Stack_LogBase o
  end.

Definition with_base (b : LogBase) (o : obj) : obj :=
  match o with
  | OFmtLog _ => OFmtLog (mkFmtLog b)
  | OStdLog _ => OStdLog (mkStdLog b)
  | OFileLog o => OFileLog (mkFileLog b (f o) (logPath o))
  | OStack o => OStack (mkStack b (loggers o))
  end.

(** [func (l *LogBase) OnInit(f ...interface{})] on the struct itself. *)
Definition LogBase_OnInit (fns : list value) (l : LogBase) : LogBase :=
  let l1 := mkLogBase [] in
  mkLogBase (initializers l1 ++ fns).

(** [OnInit] called through a pointer to a struct that embeds [LogBase]. *)
Definition OnInit (lg : Logger) (fns : list value) (w : World) : Res World :=
  match deref lg w with
  | None => Panic PNilDeref w
  | Some o => Ok (store lg.2 (with_base (LogBase_OnInit fns (base o)) o) w)
  end.

(** [funct, ok := fn.(func(s T))] *)
Definition assertFunc (want : signature) (fn : value) : option fid :=
  match fn with
  | VFunc sig g => if decide (sig = want) then Some g else None
  | _ => None
  end.

(** The loop shared by the four Init methods: [want] is the asserted function
    type, [msg] the text of the error, [self] the receiver handed to each
    callback.  The slice is the one read when the loop starts. *)
Fixpoint runInitializers `{Host} (want : signature) (msg : string) (self : value)
    (fns : list value) (w : World) : Res (World * error) :=
  match fns with
  | [] => Ok (w, None)
  | fn :: rest =>
      match assertFunc want fn with
      | None => Ok (w, Some msg)
      | Some g =>
          w' ← call g self w;
          runInitializers want msg self rest w'
      end
  end.

Definition msgLogger : string := "Init callbacks must have signature func(s Logger)".
Definition msgFileLog : string := "Init callbacks must have signature func(s *FileLog)".
Definition defaultLogPath : string := "./owtorg-logger".

Definition FmtLog_Init `{Host} (s : loc) (w : World) : Res (World * error) :=
  match getFmtLog w s with
  | None => Panic PNilDeref w
  | Some o =>
      runInitializers SigFmtLog msgLogger (VRef KFmtLog s)
        (initializers (FmtLog_LogBase o)) w
  end.

Definition StdLog_Init `{Host} (s : loc) (w : World) : Res (World * error) :=
  match getStdLog w s with
  | None => Panic PNilDeref w
  | Some o =>
      runInitializers SigStdLog msgLogger (VRef KStdLog s)
        (initializers (StdLog_LogBase o)) w
  end.

Definition FileLog_Init `{Host} (s : loc) (w : World) : Res (World * error) :=
  match getFileLog w s with
  | None => Panic PNilDeref w
  | Some o =>
      let w1 := store s (OFileLog (mkFileLog (FileLog_LogBase o) (f o) defaultLogPath)) w in
      runInitializers SigFileLog msgFileLog (VRef KFileLog s)
        (initializers (FileLog_LogBase o)) w1
  end.

(** The eight severity methods of every type differ in their label only. *)
Inductive severity :=
| Emergency | Alert | Critical | Error | Warning | Notice | Info | Debug.

Definition label (sv : severity) : string :=
  match sv with
  | Emergency => "Emergency"
  | Alert => "Alert"
  | Critical => "Critical"
  | Error => "Error"
  | Warning => "Warning"
  | Notice => "Notice"
  | Info => "Info"
  | Debug => "Debug"
  end.

(** A call of the logging part of the interface: [Log(level, v...)] or one
    of the severity methods. *)
Inductive method :=
| MLog (level : string)
| MSev (sv : severity).

Definition FmtLog_Log `{Host} (s : loc) (level : string) (v : list value)
    (w : World) : Res World :=
  Ok (fmt_Println level v w).

Definition FmtLog_severity `{Host} (sv : severity) (s : loc) (v : list value)
    (w : World) : Res World :=
  FmtLog_Log s (label sv) v w.

Definition StdLog_Log `{Host} (s : loc) (level : string) (v : list value)
    (w : World) : Res World :=
  Ok (log_Println level v w).

Definition StdLog_severity `{Host} (sv : severity) (s : loc) (v : list value)
    (w : World) : Res World :=
  StdLog_Log s (label sv) v w.

Definition FileLog_Log `{Host} (s : loc) (level : string) (v : list value)
    (w : World) : Res World :=
  match getFileLog w s with
  | None => Panic PNilDeref w
  | Some o =>
      match os_OpenFile (logPath o) w with
      | None => Panic (PValue (VInt 0%Z)) w
      | Some (h, w1) =>
          let w2 := store s (OFileLog (mkFileLog (FileLog_LogBase o) (Some h) (logPath o))) w1 in
          let w3 := log_SetOutput (FileW h) w2 in
          let w4 := log_Println level v w3 in
          Ok (os_Close h w4)        (* the deferred s.f.Close() *)
      end
  end.

Definition FileLog_severity `{Host} (sv : severity) (s : loc) (v : list value)
    (w : World) : Res World :=
  FileLog_Log s (label sv) v w.

(** ** The composite: Stack *)

(** [lg := v.(Logger)]: panics unless the dynamic type implements Logger. *)
Definition assertLogger (v : value) (w : World) : Res Logger :=
  match v with
  | VRef k l => Ok (k, l)
  | _ => Panic (PTypeAssert v) w
  end.

Definition implementsLogger (v : value) : bool :=
  match v with VRef _ _ => true | _ => false end.

Definition Stack_Init `{Host} (s : loc) (w : World) : Res (World * error) :=
  match getStack w s with
  | None => Panic PNilDeref w
  | Some o =>
      (* s.loggers = make([]interface{}, 1): one element, the zero value *)
      let w1 := store s (OStack (mkStack (Stack_LogBase o) (replicate 1 VNil))) w in
      runInitializers SigLogger msgLogger (VRef KStack s)
        (initializers (Stack_LogBase o)) w1
  end.

(** [lg.Init()] through the interface. *)
Definition Logger_Init `{Host} (lg : Logger) (w : World) : Res (World * error) :=
  match lg.1 with
  | KFmtLog => FmtLog_Init lg.2 w
  | KStdLog => StdLog_Init lg.2 w
  | KFileLog => FileLog_Init lg.2 w
  | KStack => Stack_Init lg.2 w
  end.

(** [for _, v := range l { lg := v.(Logger); lg.Init() }]: the value Init
    returns is dropped. *)
Fixpoint initEach `{Host} (l : list value) (w : World) : Res World :=
  match l with
  | [] => Ok w
  | v :: rest =>
      lg ← assertLogger v w;
      r ← Logger_Init lg w;
      initEach rest r.1
  end.

Definition Stack_Add `{Host} (s : loc) (l : list value) (w : World) : Res World :=
  w1 ← initEach l w;
  match getStack w1 s with
  | None => Panic PNilDeref w1
  | Some o => Ok (store s (OStack (mkStack (Stack_LogBase o) (loggers o ++ l))) w1)
  end.

Definition Stack_Set `{Host} (s : loc) (Loggers : list value) (w : World) : Res World :=
  match getStack w s with
  | None => Panic PNilDeref w
  | Some o =>
      let w1 := store s (OStack (mkStack (Stack_LogBase o) Loggers)) w in
      initEach Loggers w1
  end.

(** [for _, lg := range s.loggers { lg := lg.(Logger); lg.M(v...) }], with
    [dispatch] the method call through the interface. *)
Fixpoint forEachLogger (dispatch : Logger -> World -> Res World)
    (members : list value) (w : World) : Res World :=
  match members with
  | [] => Ok w
  | v :: rest =>
      lg ← assertLogger v w;
      w' ← dispatch lg w;
      forEachLogger dispatch rest w'
  end.

(** Every logging method of [Stack] hands the same call to each member. *)
Definition Stack_call (dispatch : method -> list value -> Logger -> World -> Res World)
    (s : loc) (m : method) (v : list value) (w : World) : Res World :=
  match getStack w s with
  | None => Panic PNilDeref w
  | Some o => forEachLogger (dispatch m v) (loggers o) w
  end.

(** A logging method called on a backend. *)
Definition FmtLog_call `{Host} (s : loc) (m : method) (v : list value) (w : World) : Res World :=
  match m with
  | MLog level => FmtLog_Log s level v w
  | MSev sv => FmtLog_severity sv s v w
  end.

Definition StdLog_call `{Host} (s : loc) (m : method) (v : list value) (w : World) : Res World :=
  match m with
  | MLog level => StdLog_Log s level v w
  | MSev sv => StdLog_severity sv s v w
  end.

Definition FileLog_call `{Host} (s : loc) (m : method) (v : list value) (w : World) : Res World :=
  match m with
  | MLog level => FileLog_Log s level v w
  | MSev sv => FileLog_severity sv s v w
  end.

(** Method call through the interface.  A stack may hold stacks (or itself),
    so the depth of dispatch is bounded by [fuel]. *)
Fixpoint Logger_call `{Host} (fuel : nat) (m : method) (v : list value)
    (lg : Logger) (w : World) : Res World :=
  match fuel with
  | O => OutOfFuel
  | S n =>
      match lg.1 with
      | KFmtLog => FmtLog_call lg.2 m v w
      | KStdLog => StdLog_call lg.2 m v w
      | KFileLog => FileLog_call lg.2 m v w
      | KStack => Stack_call (Logger_call n) lg.2 m v w
      end
  end.

Definition Stack_Log `{Host} (fuel : nat) (s : loc) (level : string) (v : list value)
    (w : World) : Res World :=
  Stack_call (Logger_call fuel) s (MLog level) v w.


(** ** Vocabulary of the statements *)

(** The callbacks registered on a logger, and the members of a stack. *)
Definition pending (lg : Logger) (w : World) : option (list value) :=
  (fun o => initializers (base o)) <$> deref lg w.

Definition members (s : loc) (w : World) : option (list value) :=
  loggers <$> getStack w s.

(** The writes among the system calls of a trace. *)
Definition is_write (e : event) : bool :=
  match e with EvWrite _ _ _ => true | _ => false end.

Definition writes (t : list event) : list event := filter is_write t.

(** Applying [g] to the world a call ends in, returned or panicked. *)
Definition Res_world_map (g : World -> World) (r : Res World) : Res World :=
  match r with
  | Ok w => Ok (g w)
  | Panic p w => Panic p (g w)
  | OutOfFuel => OutOfFuel
  end.

(** The level label a logging call hands to Log. *)
Definition level_of (m : method) : string :=
  match m with MLog level => level | MSev sv => label sv end.







(** Replacing the registered callbacks of the object at [l]. *)
Definition setPending (l : loc) (fns : list value) (w : World) : World :=
  set_heap (alter (with_base (mkLogBase fns)) l (heap w)) w.

(** What [setPending l gs] makes of the object [x] stored at [s]. *)
Definition rebase (l : loc) (gs : list value) (s : loc) (x : obj) : obj :=
  if decide (l = s) then with_base (mkLogBase gs) x else x.

(** Two worlds that differ at most in the object stored at [l]. *)
Definition sameBut (l : loc) (w w0 : World) : Prop :=
  (forall l', l' <> l -> heap w0 !! l' = heap w !! l') /\
  fs w0 = fs w /\ fds w0 = fds w /\ log_out w0 = log_out w /\
  log_flags w0 = log_flags w /\ log_prefix w0 = log_prefix w /\
  trace w0 = trace w.

(** The Init calls of one Add or Set, as a relation: every supplied value is
    a pointer to a logger whose Init returns; what it returns, nil or an
    error, plays no part. *)
Inductive InitRun `{Host} : list value -> World -> World -> Prop :=
| InitRun_nil w : InitRun [] w w
| InitRun_cons k l rest w w1 e w2 :
    Logger_Init (k, l) w = Ok (w1, e) ->
    InitRun rest w1 w2 ->
    InitRun (VRef k l :: rest) w w2.

(** The Init calls without the type assertion in front of each. *)
Fixpoint initLoggers `{Host} (lgs : list Logger) (w : World) : Res World :=
  match lgs with
  | [] => Ok w
  | lg :: rest => r ← Logger_Init lg w; initLoggers rest r.1
  end.

(** A backend with no callback registered. *)
Definition plainBackend (w : World) (v : value) : Prop :=
  exists k l, v = VRef k l /\ k <> KStack /\ pending (k, l) w = Some [].

(** A path that [os_OpenFile] can open. *)
Definition openable (w : World) (path : string) : Prop :=
  path <> "" /\ fs w !! path <> Some NDenied.

Global Instance openable_dec w path : Decision (openable w path).
Proof. unfold openable. apply _. Defined.

(** The world a successful [FileLog_Log] leaves behind. *)
Definition afterFileLog `{Host} (s : loc) (o : FileLog) (level : string) (v : list value)
    (w : World) : World :=
  let h := length (fds w) in
  let line := formatHeader (log_flags w) (log_prefix w) +:+ Sprintln level v in
  mkWorld
    (<[s := OFileLog (mkFileLog (FileLog_LogBase o) (Some h) (logPath o))]> (heap w))
    (<[logPath o := NFile (file_content (fs w !! logPath o) +:+ line)]> (fs w))
    (fds w ++ [(logPath o, false)])
    (FileW h) (log_flags w) (log_prefix w)
    (trace w ++ [EvOpen (logPath o) h; EvWrite (FileW h) line true; EvClose h]).

(** A run of logging calls through the interface, on one logger. *)
Fixpoint Logger_calls `{Host} (fuel : nat) (lg : Logger)
    (calls : list (method * list value)) (w : World) : Res World :=
  match calls with
  | [] => Ok w
  | c :: rest => w' ← Logger_call fuel c.1 c.2 lg w; Logger_calls fuel lg rest w'
  end.

(** A run of logging calls on one StdLog. *)
Fixpoint StdLog_calls `{Host} (s : loc) (calls : list (method * list value))
    (w : World) : Res World :=
  match calls with
  | [] => Ok w
  | c :: rest => w' ← StdLog_call s c.1 c.2 w; StdLog_calls s rest w'
  end.

(** A run of logging calls on one FileLog. *)
Fixpoint FileLog_calls `{Host} (s : loc) (calls : list (method * list value))
    (w : World) : Res World :=
  match calls with
  | [] => Ok w
  | c :: rest => w' ← FileLog_call s c.1 c.2 w; FileLog_calls s rest w'
  end.

(** The system calls of such a run on [path], handles counting up from [h]. *)
Fixpoint fileEvents `{Host} (path : string) (h : handle) (header : string)
    (calls : list (method * list value)) : list event :=
  match calls with
  | [] => []
  | c :: rest =>
      [EvOpen path h;
       EvWrite (FileW h) (header +:+ Sprintln (level_of c.1) c.2) true;
       EvClose h] ++ fileEvents path (S h) header rest
  end.

(** The lines of such a run, one after the other. *)
Fixpoint fileLines `{Host} (header : string) (calls : list (method * list value)) : string :=
  match calls with
  | [] => ""
  | c :: rest => (header +:+ Sprintln (level_of c.1) c.2) +:+ fileLines header rest
  end.

(** A registered value that, when it is a function and is called on the
    FileLog at [s], leaves the path of that FileLog as it found it. *)
Definition keepsPath `{Host} (s : loc) (fn : value) : Prop :=
  forall sig g w w', fn = VFunc sig g ->
    call g (VRef KFileLog s) w = Ok w' ->
    logPath <$> getFileLog w' s = logPath <$> getFileLog w s.



(** A member that is a backend on which a logging call returns: a FmtLog, a
    StdLog, or a valid FileLog whose path can be opened. *)
Definition usable (w : World) (member : value) : Prop :=
  match member with
  | VRef KFmtLog _ => True
  | VRef KStdLog _ => True
  | VRef KFileLog l => exists o, getFileLog w l = Some o /\ openable w (logPath o)
  | _ => False
  end.

(** The write a backend member issues for a call with label [level]. *)
Definition wroteBy `{Host} (header level : string) (v : list value)
    (member : value) (e : event) : Prop :=
  match member, e with
  | VRef KFmtLog _, EvWrite to data ok => to = Stdout /\ data = Sprintln level v
  | VRef KStdLog _, EvWrite to data ok => data = header +:+ Sprintln level v
  | VRef KFileLog _, EvWrite to data ok =>
      (exists h, to = FileW h) /\ ok = true /\ data = header +:+ Sprintln level v
  | _, _ => False
  end.

(** ** The environment of the test file *)

(** Zero values, as [new(T)] builds them. *)
Definition zero (k : kind) : obj :=
  match k with
  | KFmtLog => OFmtLog (mkFmtLog (mkLogBase []))
  | KStdLog => OStdLog (mkStdLog (mkLogBase []))
  | KFileLog => OFileLog (mkFileLog (mkLogBase []) None "")
  | KStack => OStack (mkStack (mkLogBase []) [])
  end.

(** A fresh process: nothing allocated, the std logger writes to standard
    error with the standard flags and no prefix. *)
Definition startWorld : World :=
  mkWorld ∅ ∅ [] Stderr LstdFlags "" [].

Definition testPath : string := "./test/output/testfile".

(** Function value 0 is [tlCallback] (it sets the path of the FileLog it is
    given; the time suffix of the file name is left out), function value 1
    panics, every other one returns at once. *)
Definition testCall (g : fid) (self : value) (w : World) : Res World :=
  match g, self with
  | O, VRef KFileLog l =>
      match getFileLog w l with
      | Some o => Ok (store l (OFileLog (mkFileLog (FileLog_LogBase o) (f o) testPath)) w)
      | None => Panic PNilDeref w
      end
  | 1, _ => Panic (PHost "boom") w
  | _, _ => Ok w
  end.

Definition testHost : Host :=
  {| call := testCall;
     stamp := fun _ => "2009/11/10 23:00:00 ";
     fmtPointer := fun _ => "0xc000010000" |}.

Definition tlCallback : value := VFunc SigFileLog 0.

(** [captureOutput] of the test file, up to the call of [f]. *)
Definition captureSetup (w : World) : World :=
  log_SetFlags 0%Z (log_SetOutput (OtherW 0) w).

(** A FileLog at 3 with three registered values: [tlCallback], a string, and
    a callback that would panic if it were ever reached. *)
Definition worldMixedCallbacks : World :=
  store 3 (OFileLog (mkFileLog
     (mkLogBase [tlCallback; VString "not a function"; VFunc SigFileLog 1]) None ""))
    startWorld.

(** A stack at 1, without callbacks, whose one member is the FmtLog at 2. *)
Definition worldStackOfOne : World :=
  store 1 (OStack (mkStack (mkLogBase []) [VRef KFmtLog 2]))
    (store 2 (zero KFmtLog) startWorld).

(** A stack at 1 and a FmtLog at 2 whose only registered value is a string. *)
Definition worldBadMember : World :=
  store 2 (OFmtLog (mkFmtLog (mkLogBase [VString "not a function"])))
    (store 1 (zero KStack) startWorld).

(** TestStack before its two Add calls: an empty stack at 1, a FmtLog at 2, a
    StdLog at 3, all fresh from [new]. *)
Definition worldTestStack : World :=
  store 3 (zero KStdLog) (store 2 (zero KFmtLog) (store 1 (zero KStack) startWorld)).

(** A FileLog at 3 whose path has been set by Init, in a fresh process. *)
Definition worldFileLog : World :=
  store 3 (OFileLog (mkFileLog (mkLogBase []) None defaultLogPath)) startWorld.

(** A FileLog at 3 fresh from [new], the flags of the std logger cleared as
    the earlier tests leave them. *)
Definition worldNewFileLog : World :=
  log_SetFlags 0%Z (store 3 (zero KFileLog) startWorld).

(** The eight severity calls of TestFileLog. *)
Definition eightCalls : list (method * list value) :=
  [(MSev Emergency, [VString "This is an Emergency message"]);
   (MSev Alert, [VString "This is an Alert message"]);
   (MSev Critical, [VString "This is a Critical message"]);
   (MSev Error, [VString "This is an Error message"]);
   (MSev Warning, [VString "This is a Warning message"]);
   (MSev Notice, [VString "This is a Notice"]);
   (MSev Info, [VString "This is an Info message"]);
   (MSev Debug, [VString "This is a Debug message"])].

(** The file TestFileLog expects after them. *)
Definition eightLines : string :=
  "Emergency [This is an Emergency message]" +:+ nl +:+
  "Alert [This is an Alert message]" +:+ nl +:+
  "Critical [This is a Critical message]" +:+ nl +:+
  "Error [This is an Error message]" +:+ nl +:+
  "Warning [This is a Warning message]" +:+ nl +:+
  "Notice [This is a Notice]" +:+ nl +:+
  "Info [This is an Info message]" +:+ nl +:+
  "Debug [This is a Debug message]" +:+ nl.

(** A stack at 1 whose only member is the stack at 4, which holds a FmtLog
    and a StdLog. *)
Definition worldNested : World :=
  store 1 (OStack (mkStack (mkLogBase []) [VRef KStack 4]))
    (store 4 (OStack (mkStack (mkLogBase []) [VRef KFmtLog 2; VRef KStdLog 3]))
       (store 3 (zero KStdLog) (store 2 (zero KFmtLog) startWorld))).

(** TestStack inside [captureOutput]: a FmtLog and a StdLog on the stack at
    1, the std logger captured. *)
Definition worldScenarioC : World :=
  captureSetup
    (store 1 (OStack (mkStack (mkLogBase []) [VRef KFmtLog 2; VRef KStdLog 3]))
       (store 3 (zero KStdLog) (store 2 (zero KFmtLog) startWorld))).

(** ** Vocabulary of the further properties *)

(** A property of the world a call ends in, whether it returns or panics. *)
Definition endsIn (r : Res World) (P : World -> Prop) : Prop :=
  match r with
  | Ok w' => P w'
  | Panic _ w' => P w'
  | OutOfFuel => True
  end.

(** An object without the handle a FileLog keeps from its last Log call. *)
Definition config (o : obj) : obj :=
  match o with
  | OFileLog o => OFileLog (mkFileLog (FileLog_LogBase o) None (logPath o))
  | _ => o
  end.

(** [w'] holds the objects of [w], up to the handles of the FileLogs, and
    the std logger has the flags and the prefix it had. *)
Definition sameConfig (w w' : World) : Prop :=
  (forall l, config <$> heap w' !! l = config <$> heap w !! l) /\
  log_flags w' = log_flags w /\ log_prefix w' = log_prefix w.

(** The handle table of [w'] is the one of [w] followed by closed handles. *)
Definition closedSince (w w' : World) : Prop :=
  exists paths, fds w' = fds w ++ map (fun p : string => (p, false)) paths.

(** No file of [w] is missing in [w'], every file has its former content as
    a prefix, and the trace of [w] is a prefix of the trace of [w']. *)
Definition appendedSince (w w' : World) : Prop :=
  (exists es, trace w' = trace w ++ es) /\
  forall path,
    (is_Some (fs w !! path) -> is_Some (fs w' !! path)) /\
    exists more, file_content (fs w' !! path) = file_content (fs w !! path) +:+ more.

(** What Init does to a FileLog without callbacks: the path is the default. *)
Definition resetPath (x : loc) (w : World) : World :=
  match getFileLog w x with
  | Some o => store x (OFileLog (mkFileLog (FileLog_LogBase o) (f o) defaultLogPath)) w
  | None => w
  end.

(** The same along a sequence of supplied values. *)
Fixpoint resetPaths (l : list value) (w : World) : World :=
  match l with
  | [] => w
  | VRef KFileLog x :: rest => resetPaths rest (resetPath x w)
  | _ :: rest => resetPaths rest w
  end.

(** A member on which a logging call panics with [p] at once: a value that
    is no Logger, a FileLog whose path is still empty, or a stack whose first
    member is the nil interface value. *)
Inductive failing (w : World) : value -> panic -> Prop :=
| failing_non_Logger x :
    implementsLogger x = false -> failing w x (PTypeAssert x)
| failing_empty_path l :
    logPath <$> getFileLog w l = Some "" ->
    failing w (VRef KFileLog l) (PValue (VInt 0%Z))
| failing_nil_first t rest :
    members t w = Some (VNil :: rest) ->
    failing w (VRef KStack t) (PTypeAssert VNil).

(** Two outcomes that cannot be told apart from outside: both return, or
    both panic with the same value, with the same system calls, files and
    handle table; or both run out of fuel. *)
Definition sameOutput (r r1 : Res World) : Prop :=
  match r, r1 with
  | Ok a, Ok b => trace b = trace a /\ fs b = fs a /\ fds b = fds a
  | Panic p a, Panic q b => q = p /\ trace b = trace a /\ fs b = fs a /\ fds b = fds a
  | OutOfFuel, OutOfFuel => True
  | _, _ => False
  end.

(** A member on which logging returns, with stacks nested at most [n] deep:
    a usable backend, or a valid stack all of whose members are such members
    one level down. *)
Fixpoint ready (w : World) (n : nat) (x : value) : Prop :=
  usable w x \/
  match n with
  | O => False
  | S n' =>
      exists t o, x = VRef KStack t /\ getStack w t = Some o /\
        Forall (ready w n') (loggers o)
  end.

(** The backends a logging call on [x] reaches, depth first, members in
    insertion order, a backend once for each way it is reached. *)
Fixpoint leaves (n : nat) (w : World) (x : value) : list value :=
  match x with
  | VRef KStack t =>
      match n with
      | O => []
      | S n' =>
          match getStack w t with
          | Some o => flat_map (leaves n' w) (loggers o)
          | None => []
          end
      end
  | _ => [x]
  end.

(** What a step of a logging call keeps for the members still to come. *)
Definition keepsReady (w w1 : World) : Prop :=
  (forall y, usable w y -> usable w1 y) /\
  (forall t, getStack w1 t = getStack w t) /\
  log_flags w1 = log_flags w /\ log_prefix w1 = log_prefix w.

(** A stack at 1 holding a FmtLog, and a populated stack at 4 that is not
    yet a member of it. *)
Definition worldTwoStacks : World :=
  store 4 (OStack (mkStack (mkLogBase []) [VRef KStdLog 3]))
    (store 1 (OStack (mkStack (mkLogBase []) [VRef KFmtLog 2]))
       (store 3 (zero KStdLog) (store 2 (zero KFmtLog) startWorld))).

(** A stack at 1 holding a FmtLog, and a FileLog at 5 fresh from [new]. *)
Definition worldStackAndFile : World :=
  store 5 (zero KFileLog)
    (store 1 (OStack (mkStack (mkLogBase []) [VRef KFmtLog 2]))
       (store 2 (zero KFmtLog) startWorld)).

(** A stack at 1 whose second member is the nil interface value. *)
Definition worldNilInTheMiddle : World :=
  store 1 (OStack (mkStack (mkLogBase []) [VRef KFmtLog 2; VNil; VRef KStdLog 3]))
    (store 3 (zero KStdLog) (store 2 (zero KFmtLog) startWorld)).

(** A function value that, called on a FileLog, sets its path to [p] and
    does nothing else, as [tlCallback] of the test file does. *)
Definition setsPathTo `{Host} (g : fid) (p : string) : Prop :=
  forall s w o, getFileLog w s = Some o ->
    call g (VRef KFileLog s) w
    = Ok (store s (OFileLog (mkFileLog (FileLog_LogBase o) (f o) p)) w).

(** The last of the paths [ps], or [d] when there is none. *)
Definition lastPath (d : string) (ps : list string) : string :=
  foldl (fun _ p => p) d ps.

(** TestFileLog after OnInit(tlCallback): a FileLog at 3 with the callback
    registered, not yet initialised. *)
Definition worldTlCallback : World :=
  store 3 (OFileLog (mkFileLog (mkLogBase [tlCallback]) None "")) startWorld.

(** A host whose function values, called on a stack, set its members to the
    FmtLog at 2 (what a callback calling Set would do), and a stack at 1 with
    such a callback registered. *)
Definition populatingHost : Host :=
  {| call := fun _ self w =>
       match self with
       | VRef KStack s =>
           match getStack w s with
           | Some o => Ok (store s (OStack (mkStack (Stack_LogBase o) [VRef KFmtLog 2])) w)
           | None => Panic PNilDeref w
           end
       | _ => Ok w
       end;
     stamp := fun _ => "2009/11/10 23:00:00 ";
     fmtPointer := fun _ => "0xc000010000" |}.

Definition worldPopulating : World :=
  store 1 (OStack (mkStack (mkLogBase [VFunc SigLogger 0]) [VRef KStdLog 3]))
    (store 3 (zero KStdLog) (store 2 (zero KFmtLog) startWorld)).

(** ** The test file *)

(** The bytes the successful writes to [to] among [es] have delivered. *)
Fixpoint written (to : writer) (es : list event) : string :=
  match es with
  | [] => ""
  | EvWrite to' data true :: rest =>
      if decide (to' = to) then data +:+ written to rest else written to rest
  | _ :: rest => written to rest
  end.

(** [captureOutput(f)].  [buf] names the bytes.Buffer the function creates;
    being new, it holds what is written to it from the call on. *)
Definition captureOutput (buf : nat) (body : World -> Res World) (w : World)
    : Res (World * string) :=
  let w1 := log_SetOutput (OtherW buf) w in
  let w2 := log_SetFlags 0%Z w1 in
  w3 ← body w2;
  let w4 := log_SetOutput Stderr w3 in
  Ok (w4, written (OtherW buf) (drop (length (trace w)) (trace w3))).

(** [testOutput(output, expected, t)], with [t] reduced to "has failed". *)
Definition testOutput (output expected : string) (failed : bool) : bool :=
  if decide (output = expected) then failed else true.

Definition testMessage : list value := [VString "This is a message"].

(** The eight blocks of [testLogLevels], which differ in the severity only. *)
Fixpoint testLevels `{Host} (fuel : nat) (buf : nat) (stdLog : Logger)
    (svs : list severity) (failed : bool) (w : World) : Res (World * bool) :=
  match svs with
  | [] => Ok (w, failed)
  | sv :: rest =>
      r ← captureOutput buf (Logger_call fuel (MSev sv) testMessage stdLog) w;
      testLevels fuel buf stdLog rest
        (testOutput r.2 (label sv +:+ " [This is a message]" +:+ nl) failed) r.1
  end.

Definition testLogLevels `{Host} (fuel : nat) (buf : nat) (stdLog : Logger)
    (failed : bool) (w : World) : Res (World * bool) :=
  testLevels fuel buf stdLog
    [Emergency; Alert; Critical; Error; Warning; Notice; Info; Debug] failed w.

(** The world with further system calls in its trace. *)
Definition emitAll (es : list event) (w : World) : World :=
  mkWorld (heap w) (fs w) (fds w) (log_out w) (log_flags w) (log_prefix w)
          (trace w ++ es).

(** A member that is a FmtLog. *)
Definition isFmtLog (x : value) : Prop := exists l, x = VRef KFmtLog l.

(** ** Basic facts *)

Lemma bind_Ok {A B} (k : A -> Res B) (a : A) : (Ok a ≫= k) = k a.
Proof. reflexivity. Qed.

Lemma bind_is_Ok {A B} (k : A -> Res B) (m : Res A) (b : B) :
  (m ≫= k) = Ok b -> exists a, m = Ok a /\ k a = Ok b.
Proof. destruct m as [a|p w|]; simpl; intros E; try discriminate. eauto. Qed.

Lemma bind_Panic_not_Ok {A} (m : Res A) (k : A -> panic * World) (w' : World) :
  (m ≫= fun a => Panic (k a).1 (k a).2) <> Ok w'.
Proof. by destruct m. Qed.

Lemma kind_of_with_base b o : kind_of (with_base b o) = kind_of o.
Proof. by destruct o. Qed.

Lemma base_with_base b o : base (with_base b o) = b.
Proof. by destruct o. Qed.

Lemma with_base_with_base b b' o : with_base b (with_base b' o) = with_base b o.
Proof. by destruct o. Qed.

Lemma deref_Some lg w o :
  deref lg w = Some o <-> heap w !! lg.2 = Some o /\ kind_of o = lg.1.
Proof.
  unfold deref. destruct (heap w !! lg.2) as [o'|].
  - case_decide as K; split.
    + by intros [= <-].
    + by intros [[= <-] _].
    + done.
    + intros [[= <-] K']. by destruct K.
  - split; [done|]. by intros [? _].
Qed.

Lemma deref_store lg o w :
  kind_of o = lg.1 -> deref lg (store lg.2 o w) = Some o.
Proof.
  intros K. apply deref_Some. split; [|done].
  unfold store; simpl. apply lookup_insert_eq.
Qed.

Lemma store_store l o o' w : store l o (store l o' w) = store l o w.
Proof. unfold store, set_heap; simpl. by rewrite insert_insert_eq. Qed.

Lemma getFmtLog_deref w s o :
  getFmtLog w s = Some o <-> deref (KFmtLog, s) w = Some (OFmtLog o).
Proof.
  unfold getFmtLog, deref; simpl.
  destruct (heap w !! s) as [[x|x|x|x]|]; simpl; split; congruence.
Qed.

Lemma getStdLog_deref w s o :
  getStdLog w s = Some o <-> deref (KStdLog, s) w = Some (OStdLog o).
Proof.
  unfold getStdLog, deref; simpl.
  destruct (heap w !! s) as [[x|x|x|x]|]; simpl; split; congruence.
Qed.

Lemma getFileLog_deref w s o :
  getFileLog w s = Some o <-> deref (KFileLog, s) w = Some (OFileLog o).
Proof.
  unfold getFileLog, deref; simpl.
  destruct (heap w !! s) as [[x|x|x|x]|]; simpl; split; congruence.
Qed.


(** ** LogBase.OnInit *)

Lemma OnInit_Ok lg fns w o :
  deref lg w = Some o ->
  OnInit lg fns w = Ok (store lg.2 (with_base (mkLogBase fns) o) w).
Proof. intros D. unfold OnInit. by rewrite D. Qed.

Lemma pending_OnInit lg fns w w' :
  OnInit lg fns w = Ok w' -> pending lg w' = Some fns.
Proof.
  unfold OnInit. destruct (deref lg w) as [o|] eqn:D; [|done].
  intros [= <-]. unfold pending.
  rewrite deref_store.
  - simpl. by rewrite base_with_base.
  - rewrite kind_of_with_base. by apply deref_Some in D as [_ ?].
Qed.

(** C6: registering callbacks overwrites the pending list.  On any logger
    whose pointer is valid, OnInit(fs...) followed by OnInit(gs...) both
    return, the pending list is then exactly gs, and the world is the one a
    single OnInit(gs...) would have produced: the first set is gone. *)
Theorem OnInit_replaces_pending (lg : Logger) (fs gs : list value) (w : World) :
  is_Some (deref lg w) ->
  exists w1 w2,
    OnInit lg fs w = Ok w1 /\ OnInit lg gs w1 = Ok w2 /\
    pending lg w2 = Some gs /\ OnInit lg gs w = Ok w2.
Proof.
  intros [o D].
  assert (K : kind_of o = lg.1) by (by apply deref_Some in D as [_ ?]).
  exists (store lg.2 (with_base (mkLogBase fs) o) w).
  exists (store lg.2 (with_base (mkLogBase gs) o) w).
  split; [by apply OnInit_Ok|].
  assert (E2 : OnInit lg gs (store lg.2 (with_base (mkLogBase fs) o) w)
               = Ok (store lg.2 (with_base (mkLogBase gs) o) w)).
  { erewrite OnInit_Ok; [|apply deref_store; by rewrite kind_of_with_base].
    by rewrite store_store, with_base_with_base. }
  split; [exact E2|]. split; [|by apply OnInit_Ok].
  by eapply pending_OnInit.
Qed.

Lemma OnInit_replaces_pending_witness :
  exists w1 w2,
    OnInit (KFileLog, 3) [VString "old"] (store 3 (zero KFileLog) startWorld) = Ok w1 /\
    OnInit (KFileLog, 3) [tlCallback] w1 = Ok w2 /\
    pending (KFileLog, 3) w2 = Some [tlCallback] /\
    OnInit (KFileLog, 3) [tlCallback] (store 3 (zero KFileLog) startWorld) = Ok w2.
Proof.
  apply (OnInit_replaces_pending (KFileLog, 3) [VString "old"] [tlCallback]).
  vm_compute. eauto.
Defined.

(** ** Init *)

Section Init.
Context `{Host}.





End Init.

(** ** Logging never looks at the registered callbacks *)

Section Pending.
Context `{Host}.

Lemma heap_setPending l gs w s :
  heap (setPending l gs w) !! s = rebase l gs s <$> heap w !! s.
Proof.
  unfold setPending, rebase; simpl. rewrite lookup_alter.
  case_decide as E; [by subst|]. by destruct (heap w !! s).
Qed.

Lemma store_setPending l gs s x w :
  store s (rebase l gs s x) (setPending l gs w) = setPending l gs (store s x w).
Proof.
  unfold store, setPending, set_heap, rebase; simpl. f_equal.
  case_decide as E.
  - subst. by rewrite insert_alter_eq, alter_insert_eq.
  - by rewrite alter_insert_ne.
Qed.

Lemma write_setPending l gs to data w :
  write to data (setPending l gs w) = setPending l gs (write to data w).
Proof.
  unfold write. destruct to; try done. simpl.
  destruct (fds w !! h) as [[path [|]]|]; done.
Qed.

Lemma os_OpenFile_setPending l gs path w :
  os_OpenFile path (setPending l gs w) =
  (fun r : handle * World => (r.1, setPending l gs r.2)) <$> os_OpenFile path w.
Proof.
  unfold os_OpenFile. case_decide; [done|]. simpl.
  destruct (fs w !! path) as [[c|]|]; done.
Qed.

Lemma log_Println_setPending l gs level v w :
  log_Println level v (setPending l gs w) = setPending l gs (log_Println level v w).
Proof. unfold log_Println. by rewrite write_setPending. Qed.

Lemma FileLog_tail_setPending l gs s x h level v w :
  os_Close h (log_Println level v (log_SetOutput (FileW h)
     (store s (rebase l gs s x) (setPending l gs w)))) =
  setPending l gs (os_Close h (log_Println level v (log_SetOutput (FileW h)
     (store s x w)))).
Proof.
  rewrite store_setPending. generalize (store s x w) as w2. intros w2.
  change (log_SetOutput (FileW h) (setPending l gs w2))
    with (setPending l gs (log_SetOutput (FileW h) w2)).
  by rewrite log_Println_setPending.
Qed.

Lemma getFileLog_setPending l gs s w :
  getFileLog (setPending l gs w) s =
  (fun o => if decide (l = s) then mkFileLog (mkLogBase gs) (f o) (logPath o) else o)
    <$> getFileLog w s.
Proof.
  unfold getFileLog. rewrite heap_setPending. unfold rebase.
  destruct (heap w !! s) as [[o|o|o|o]|]; simpl; try done; by case_decide.
Qed.

Lemma getStack_setPending l gs s w :
  getStack (setPending l gs w) s =
  (fun o => if decide (l = s) then mkStack (mkLogBase gs) (loggers o) else o)
    <$> getStack w s.
Proof.
  unfold getStack. rewrite heap_setPending. unfold rebase.
  destruct (heap w !! s) as [[o|o|o|o]|]; simpl; try done; by case_decide.
Qed.

Lemma FileLog_Log_setPending l gs s level v w :
  FileLog_Log s level v (setPending l gs w) =
  Res_world_map (setPending l gs) (FileLog_Log s level v w).
Proof.
  unfold FileLog_Log. rewrite getFileLog_setPending.
  destruct (getFileLog w s) as [o|]; [|done].
  cbn [fmap option_fmap option_map].
  assert (P : logPath (if decide (l = s)
                then mkFileLog (mkLogBase gs) (f o) (logPath o) else o) = logPath o)
    by (by case_decide).
  rewrite P, os_OpenFile_setPending.
  destruct (os_OpenFile (logPath o) w) as [[h w1]|]; [|done].
  cbn [fmap option_fmap option_map fst snd Res_world_map]. f_equal.
  rewrite <- (FileLog_tail_setPending l gs s). unfold rebase.
  by case_decide.
Qed.

Lemma forEachLogger_setPending l gs (dispatch : Logger -> World -> Res World) ms :
  (forall lg w, dispatch lg (setPending l gs w) = Res_world_map (setPending l gs) (dispatch lg w)) ->
  forall w, forEachLogger dispatch ms (setPending l gs w) =
            Res_world_map (setPending l gs) (forEachLogger dispatch ms w).
Proof.
  intros Hd. induction ms as [|m rest IH]; intros w; simpl; [done|].
  destruct m; simpl; try done.
  rewrite Hd. destruct (dispatch (k, l0) w) as [w'| |]; simpl; [|done..].
  apply IH.
Qed.

Lemma Logger_call_setPending fuel m v lg l gs w :
  Logger_call fuel m v lg (setPending l gs w) =
  Res_world_map (setPending l gs) (Logger_call fuel m v lg w).
Proof.
  revert lg w. induction fuel as [|n IH]; intros [k s] w; simpl; [done|].
  destruct k; simpl.
  - destruct m; simpl; unfold FmtLog_severity, FmtLog_Log, fmt_Println;
      by rewrite write_setPending.
  - destruct m; simpl; unfold StdLog_severity, StdLog_Log, log_Println;
      by rewrite <- write_setPending.
  - destruct m; simpl; unfold FileLog_severity; apply FileLog_Log_setPending.
  - unfold Stack_call. rewrite getStack_setPending.
    destruct (getStack w s) as [o|]; [|done].
    cbn [fmap option_fmap option_map].
    assert (P : loggers (if decide (l = s) then mkStack (mkLogBase gs) (loggers o) else o)
                = loggers o) by (by case_decide).
    rewrite P. apply forEachLogger_setPending. intros lg w'. apply IH.
Qed.

End Pending.



(** The run behind the witness: the first callback has set the path, the
    string stops the loop with the error, the third value is never called. *)
Example Init_mixed_callbacks_run :
  (r ← @Logger_Init testHost (KFileLog, 3) worldMixedCallbacks;
   Ok (logPath <$> getFileLog r.1 3, r.2))
  = Ok (Some testPath, Some msgFileLog).
Proof. reflexivity. Qed.

(** ** Stack.Init *)

Section StackInit.
Context `{Host}.

Lemma members_store_stack s b ms w :
  members s (store s (OStack (mkStack b ms)) w) = Some ms.
Proof.
  unfold members, getStack, store; simpl. by rewrite lookup_insert_eq.
Qed.

Lemma sameBut_store s x w : sameBut s w (store s x w).
Proof.
  split; [|done]. intros l' Hne. unfold store; simpl. by rewrite lookup_insert_ne.
Qed.

(** C2: what Stack.Init does to the member sequence.  It stores a fresh
    sequence of length one, whose only element is the nil interface value,
    and then runs the stack's callbacks on that world.  With no callback
    registered Init returns nil and leaves the stack with this one nil
    member, on which every later Log call panics at the type assertion. *)
Theorem Stack_Init_leaves_one_nil_member (s : loc) (w : World) (o : Stack) :
  getStack w s = Some o ->
  exists w1, sameBut s w w1 /\ members s w1 = Some [VNil] /\
    Stack_Init s w =
      runInitializers SigLogger msgLogger (VRef KStack s)
        (initializers (Stack_LogBase o)) w1 /\
    (initializers (Stack_LogBase o) = [] ->
       Stack_Init s w = Ok (w1, None) /\
       forall fuel level v,
         Stack_Log fuel s level v w1 = Panic (PTypeAssert VNil) w1).
Proof.
  intros G. exists (store s (OStack (mkStack (Stack_LogBase o) (replicate 1 VNil))) w).
  split; [apply sameBut_store|]. split; [apply members_store_stack|].
  unfold Stack_Init. rewrite G. split; [done|].
  intros ->. split; [done|]. intros fuel level v.
  unfold Stack_Log, Stack_call, getStack, store; simpl.
  by rewrite lookup_insert_eq.
Qed.

End StackInit.

Lemma Stack_Init_leaves_one_nil_member_witness :
  getStack worldStackOfOne 1 = Some (mkStack (mkLogBase []) [VRef KFmtLog 2]) /\
  exists w1, members 1 w1 = Some [VNil] /\
    @Stack_Init testHost 1 worldStackOfOne = Ok (w1, None) /\
    @Stack_Log testHost 2 1 "Info" [VString "x"] w1 = Panic (PTypeAssert VNil) w1.
Proof.
  split; [reflexivity|].
  destruct (@Stack_Init_leaves_one_nil_member testHost 1 worldStackOfOne _ eq_refl)
    as (w1 & _ & M & _ & E).
  exists w1. split; [exact M|].
  destruct (E eq_refl) as [E1 E2]. split; [exact E1|apply E2].
Defined.

(** ** Stack.Add and Stack.Set *)

Section AddSet.
Context `{Host}.

Lemma initEach_InitRun l w w' : initEach l w = Ok w' <-> InitRun l w w'.
Proof.
  split.
  - revert w. induction l as [|v rest IH]; intros w; simpl.
    + intros [= <-]. constructor.
    + destruct v; simpl; try done.
      intros E. apply bind_is_Ok in E as ([w1 e] & E1 & E2).
      econstructor; [exact E1|]. by apply IH.
  - induction 1 as [|k l rest w w1 e w2 E _ IH]; simpl; [done|].
    by rewrite E.
Qed.

Lemma Stack_Add_Ok s l w w' :
  Stack_Add s l w = Ok w' <->
  exists w1 o, InitRun l w w1 /\ getStack w1 s = Some o /\
    w' = store s (OStack (mkStack (Stack_LogBase o) (loggers o ++ l))) w1.
Proof.
  unfold Stack_Add. split.
  - intros E. apply bind_is_Ok in E as (w1 & E1 & E2).
    destruct (getStack w1 s) as [o|] eqn:G; [|done].
    injection E2 as <-. exists w1, o. by rewrite <- initEach_InitRun.
  - intros (w1 & o & R & G & ->). apply initEach_InitRun in R.
    rewrite R; simpl. by rewrite G.
Qed.

Lemma Stack_Set_Ok s l w w' :
  Stack_Set s l w = Ok w' <->
  exists o, getStack w s = Some o /\
    InitRun l (store s (OStack (mkStack (Stack_LogBase o) l)) w) w'.
Proof.
  unfold Stack_Set. destruct (getStack w s) as [o|].
  - rewrite initEach_InitRun. split; [eauto|]. by intros (o' & [= <-] & R).
  - split; [done|]. by intros (o' & ? & _).
Qed.

(** Init of a backend without callbacks returns nil and leaves every stack,
    and every pending list, as it was. *)
Lemma plain_Init w k l :
  k <> KStack -> pending (k, l) w = Some [] ->
  exists w1, Logger_Init (k, l) w = Ok (w1, None) /\
    (forall s, getStack w1 s = getStack w s) /\
    (forall lg, pending lg w1 = pending lg w).
Proof.
  intros NS P. unfold pending in P.
  destruct (deref (k, l) w) as [o|] eqn:D; [|done].
  injection P as P. pose proof D as D'. apply deref_Some in D' as [Hl K].
  simpl in Hl, K. unfold Logger_Init; simpl.
  destruct o as [o|o|o|o]; simpl in K; subst k; try done; simpl in P.
  - exists w. unfold FmtLog_Init. apply getFmtLog_deref in D. by rewrite D, P.
  - exists w. unfold StdLog_Init. apply getStdLog_deref in D. by rewrite D, P.
  - eexists. unfold FileLog_Init. apply getFileLog_deref in D. rewrite D, P.
    split; [done|]. split.
    + intros s. unfold getStack, store; simpl.
      destruct (decide (l = s)) as [->|Hne].
      * by rewrite lookup_insert_eq, Hl.
      * by rewrite lookup_insert_ne.
    + intros [k' l']. unfold pending, deref, store; simpl.
      destruct (decide (l = l')) as [->|Hne].
      * rewrite lookup_insert_eq, Hl. simpl. by case_decide.
      * by rewrite lookup_insert_ne.
Qed.

Lemma plain_initEach l w :
  Forall (plainBackend w) l ->
  exists w1, initEach l w = Ok w1 /\ (forall s, getStack w1 s = getStack w s).
Proof.
  revert w. induction l as [|v rest IH]; intros w F; simpl; [by exists w|].
  apply Forall_cons in F as [(k & x & -> & NS & P) F]. simpl.
  destruct (plain_Init w k x NS P) as (w1 & E & St & Pe). rewrite E. simpl.
  destruct (IH w1) as (w2 & E2 & St2).
  - eapply Forall_impl; [exact F|]. intros v (k' & x' & -> & NS' & P').
    exists k', x'. by rewrite Pe.
  - exists w2. split; [done|]. intros s. by rewrite St2.
Qed.

Lemma initEach_first_non_Logger pre v post w :
  Forall (fun x => implementsLogger x = true) pre ->
  implementsLogger v = false ->
  initEach (pre ++ v :: post) w = (w1 ← initEach pre w; Panic (PTypeAssert v) w1).
Proof.
  intros F NL. revert w. induction pre as [|x pre IH]; intros w; simpl.
  - by destruct v.
  - apply Forall_cons in F as [Hx F]. destruct x; try done. simpl.
    destruct (Logger_Init (k, l) w) as [[w1 e]| |]; simpl; [|done..].
    by apply IH.
Qed.

Lemma initEach_loggers lgs w :
  initEach (Logger_value <$> lgs) w = initLoggers lgs w.
Proof.
  revert w. induction lgs as [|[k l] rest IH]; intros w; simpl; [done|].
  destruct (Logger_Init (k, l) w) as [[w1 e]| |]; simpl; [|done..].
  apply IH.
Qed.

End AddSet.

(** C1, as stated, fails: the supplied logger's Init returns the error, yet
    Add returns normally (it has no result to carry a failure) and the logger
    is a member afterwards.  Set does the same. *)
Lemma Stack_Add_keeps_logger_whose_Init_failed :
  (r ← @Logger_Init testHost (KFmtLog, 2) worldBadMember; Ok r.2)
    = Ok (Some msgLogger) /\
  (w' ← @Stack_Add testHost 1 [VRef KFmtLog 2] worldBadMember; Ok (members 1 w'))
    = Ok (Some [VRef KFmtLog 2]) /\
  (w' ← @Stack_Set testHost 1 [VRef KFmtLog 2] worldBadMember; Ok (members 1 w'))
    = Ok (Some [VRef KFmtLog 2]).
Proof. repeat split; reflexivity. Qed.

(** C1 (amended): Add returns normally exactly when every supplied value
    is a logger whose Init returns, with nil or with an error alike; the Init
    calls run in call order, and the supplied loggers are then appended, in
    call order, to the member sequence as the Init calls left it.  Set stores
    the supplied sequence and then runs the same Init calls.  Neither has a
    result that could carry a member's Init failure.  When the supplied
    loggers are backends without callbacks, Add returns and the members are
    the previous ones followed by the supplied ones. *)
Theorem Stack_Add_inits_then_appends_all `{Host} (s : loc) (l : list value) (w : World) :
  (forall w', Stack_Add s l w = Ok w' <->
     exists w1 o, InitRun l w w1 /\ getStack w1 s = Some o /\
       w' = store s (OStack (mkStack (Stack_LogBase o) (loggers o ++ l))) w1)
  /\ (forall w', Stack_Set s l w = Ok w' <->
     exists o, getStack w s = Some o /\
       InitRun l (store s (OStack (mkStack (Stack_LogBase o) l)) w) w')
  /\ (forall o, getStack w s = Some o -> Forall (plainBackend w) l ->
     exists w', Stack_Add s l w = Ok w' /\ members s w' = Some (loggers o ++ l)).
Proof.
  split; [intros w'; apply Stack_Add_Ok|]. split; [intros w'; apply Stack_Set_Ok|].
  intros o G F. destruct (plain_initEach l w F) as (w1 & E & St).
  unfold Stack_Add. rewrite E; simpl. rewrite St, G.
  eexists. split; [done|]. apply members_store_stack.
Qed.

Lemma Stack_Add_inits_then_appends_all_witness :
  getStack worldTestStack 1 = Some (mkStack (mkLogBase []) []) /\
  Forall (plainBackend worldTestStack) [VRef KFmtLog 2; VRef KStdLog 3] /\
  exists w', @Stack_Add testHost 1 [VRef KFmtLog 2; VRef KStdLog 3] worldTestStack = Ok w' /\
    members 1 w' = Some [VRef KFmtLog 2; VRef KStdLog 3].
Proof.
  assert (F : Forall (plainBackend worldTestStack) [VRef KFmtLog 2; VRef KStdLog 3]).
  { repeat constructor.
    - exists KFmtLog, 2. split; [reflexivity|split; [discriminate|reflexivity]].
    - exists KStdLog, 3. split; [reflexivity|split; [discriminate|reflexivity]]. }
  split; [reflexivity|]. split; [exact F|].
  exact (proj2 (proj2 (@Stack_Add_inits_then_appends_all testHost 1
    [VRef KFmtLog 2; VRef KStdLog 3] worldTestStack)) _ eq_refl F).
Defined.

(** C10: Add and Set assert, unchecked, that each supplied value is a
    Logger.  With v the first supplied value that is not one (the nil
    interface value is such a value), the Init calls of the loggers in front
    of it run and then the call panics at the assertion on v, so it never
    returns; Set has by then already stored the sequence.  On a sequence of
    loggers the assertion does nothing: the loop is the Init calls alone. *)
Theorem Stack_Add_Set_panic_on_non_Logger `{Host} (s : loc) (pre post : list value)
    (v : value) (w : World) :
  Forall (fun x => implementsLogger x = true) pre ->
  implementsLogger v = false ->
  Stack_Add s (pre ++ v :: post) w = (w1 ← initEach pre w; Panic (PTypeAssert v) w1)
  /\ Stack_Set s (pre ++ v :: post) w =
       match getStack w s with
       | None => Panic PNilDeref w
       | Some o =>
           w1 ← initEach pre
                  (store s (OStack (mkStack (Stack_LogBase o) (pre ++ v :: post))) w);
           Panic (PTypeAssert v) w1
       end
  /\ (forall w', Stack_Add s (pre ++ v :: post) w <> Ok w')
  /\ (forall w', Stack_Set s (pre ++ v :: post) w <> Ok w')
  /\ implementsLogger VNil = false
  /\ (forall lgs w0, initEach (Logger_value <$> lgs) w0 = initLoggers lgs w0).
Proof.
  intros F NL.
  assert (A : Stack_Add s (pre ++ v :: post) w
              = (w1 ← initEach pre w; Panic (PTypeAssert v) w1)).
  { unfold Stack_Add. rewrite initEach_first_non_Logger by done.
    by destruct (initEach pre w). }
  assert (B : Stack_Set s (pre ++ v :: post) w =
       match getStack w s with
       | None => Panic PNilDeref w
       | Some o =>
           w1 ← initEach pre
                  (store s (OStack (mkStack (Stack_LogBase o) (pre ++ v :: post))) w);
           Panic (PTypeAssert v) w1
       end).
  { unfold Stack_Set. destruct (getStack w s) as [o|]; [|done].
    by apply initEach_first_non_Logger. }
  split; [exact A|]. split; [exact B|]. split; [|split; [|split; [done|]]].
  - intros w'. rewrite A. apply (bind_Panic_not_Ok _ (fun w1 => (PTypeAssert v, w1))).
  - intros w'. rewrite B. destruct (getStack w s) as [o|]; [|done].
    apply (bind_Panic_not_Ok _ (fun w1 => (PTypeAssert v, w1))).
  - intros lgs w0. apply initEach_loggers.
Qed.

Lemma Stack_Add_Set_panic_on_non_Logger_witness :
  Forall (fun x => implementsLogger x = true) [VRef KFmtLog 2] /\
  implementsLogger VNil = false /\
  @Stack_Add testHost 1 ([VRef KFmtLog 2] ++ VNil :: [VRef KStdLog 3]) worldTestStack
    = Panic (PTypeAssert VNil) worldTestStack.
Proof.
  assert (F : Forall (fun x => implementsLogger x = true) [VRef KFmtLog 2])
    by (repeat constructor).
  split; [exact F|]. split; [reflexivity|].
  exact (proj1 (@Stack_Add_Set_panic_on_non_Logger testHost 1 [VRef KFmtLog 2]
    [VRef KStdLog 3] VNil worldTestStack F eq_refl)).
Defined.

(** ** File system and std logger *)

Section IO.
Context `{Host}.

Lemma os_OpenFile_openable path w :
  openable w path ->
  os_OpenFile path w =
    Some (length (fds w),
          mkWorld (heap w)
            (<[path := NFile (file_content (fs w !! path))]> (fs w))
            (fds w ++ [(path, true)]) (log_out w) (log_flags w) (log_prefix w)
            (trace w ++ [EvOpen path (length (fds w))])).
Proof.
  intros [NE ND]. unfold os_OpenFile. rewrite decide_False by done.
  destruct (fs w !! path) as [[c|]|] eqn:E; [|done|done].
  simpl. unfold emit, set_fds; simpl. by rewrite insert_id.
Qed.

Lemma os_OpenFile_None path w :
  os_OpenFile path w = None <-> ~ openable w path.
Proof.
  split.
  - intros E O. by rewrite (os_OpenFile_openable _ _ O) in E.
  - intros NO. unfold os_OpenFile. case_decide; [done|].
    destruct (fs w !! path) as [[c|]|] eqn:E; [|done|];
      exfalso; apply NO; split; try done; by rewrite E.
Qed.

Lemma write_open_file h path data w :
  fds w !! h = Some (path, true) ->
  write (FileW h) data w =
    mkWorld (heap w)
      (<[path := NFile (file_content (fs w !! path) +:+ data)]> (fs w))
      (fds w) (log_out w) (log_flags w) (log_prefix w)
      (trace w ++ [EvWrite (FileW h) data true]).
Proof. intros E. unfold write. by rewrite E. Qed.

Lemma write_closed_file h path data w :
  fds w !! h = Some (path, false) ->
  write (FileW h) data w = emit (EvWrite (FileW h) data false) w.
Proof. intros E. unfold write. by rewrite E. Qed.

Lemma write_trace to data w :
  exists ok, trace (write to data w) = trace w ++ [EvWrite to data ok].
Proof.
  unfold write. destruct to; try (by exists true).
  destruct (fds w !! h) as [[path [|]]|]; by eexists.
Qed.

Lemma write_frame to data w :
  heap (write to data w) = heap w /\ fds (write to data w) = fds w /\
  log_out (write to data w) = log_out w /\
  log_flags (write to data w) = log_flags w /\
  log_prefix (write to data w) = log_prefix w.
Proof.
  unfold write. destruct to; try done.
  destruct (fds w !! h) as [[path [|]]|]; done.
Qed.

Lemma write_not_denied to data w path :
  fs w !! path <> Some NDenied -> fs (write to data w) !! path <> Some NDenied.
Proof.
  intros ND. unfold write. destruct to; try done.
  destruct (fds w !! h) as [[p [|]]|]; try done. simpl.
  destruct (decide (p = path)) as [->|Hne].
  - by rewrite lookup_insert_eq.
  - by rewrite lookup_insert_ne.
Qed.

Lemma FileLog_Log_openable s o level v w :
  getFileLog w s = Some o -> openable w (logPath o) ->
  FileLog_Log s level v w = Ok (afterFileLog s o level v w).
Proof.
  intros G O. unfold FileLog_Log. rewrite G, (os_OpenFile_openable _ _ O).
  f_equal. unfold log_Println, log_SetOutput, set_log_out, store, set_heap.
  cbn [heap fs fds log_out log_flags log_prefix trace].
  erewrite write_open_file; [|cbn [fds]; by apply list_lookup_middle].
  unfold os_Close, afterFileLog, emit, set_fds.
  cbn [heap fs fds log_out log_flags log_prefix trace].
  rewrite lookup_insert_eq, insert_insert_eq. cbn [file_content].
  f_equal.
  - replace (length (fds w)) with (length (fds w) + 0) at 1 by lia.
    by rewrite alter_app_r.
  - by rewrite <- !app_assoc.
Qed.

Lemma FileLog_Log_not_openable s o level v w :
  getFileLog w s = Some o -> ~ openable w (logPath o) ->
  FileLog_Log s level v w = Panic (PValue (VInt 0%Z)) w.
Proof.
  intros G NO. unfold FileLog_Log. apply os_OpenFile_None in NO. by rewrite G, NO.
Qed.

Lemma FileLog_Log_inv s level v w w' :
  FileLog_Log s level v w = Ok w' ->
  exists o, getFileLog w s = Some o /\ openable w (logPath o) /\
            w' = afterFileLog s o level v w.
Proof.
  intros E. destruct (getFileLog w s) as [o|] eqn:G.
  - exists o. split; [done|].
    destruct (os_OpenFile (logPath o) w) as [r|] eqn:O.
    + assert (OP : openable w (logPath o)).
      { destruct (decide (openable w (logPath o))) as [?|NO]; [done|].
        apply os_OpenFile_None in NO. congruence. }
      split; [done|]. rewrite (FileLog_Log_openable _ _ _ _ _ G OP) in E. congruence.
    + unfold FileLog_Log in E. by rewrite G, O in E.
  - unfold FileLog_Log in E. by rewrite G in E.
Qed.

End IO.

(** C8: one FileLog.Log call on a valid FileLog.  If the path can be opened
    the call returns, having issued exactly an open of the path (which creates
    the file when absent), one write of the formatted line to the new handle,
    and the close of that handle: the line is appended to the file, no other
    file changes, and the handle table afterwards is the old one plus the new
    handle, closed.  If the path cannot be opened the call panics with the
    value 0 and the world is untouched; no error is returned. *)
Theorem FileLog_Log_open_append_close `{Host} (s : loc) (level : string)
    (v : list value) (w : World) (o : FileLog) :
  getFileLog w s = Some o ->
  let h := length (fds w) in
  let line := formatHeader (log_flags w) (log_prefix w) +:+ Sprintln level v in
  (openable w (logPath o) ->
     exists w', FileLog_Log s level v w = Ok w' /\
       trace w' = trace w ++
         [EvOpen (logPath o) h; EvWrite (FileW h) line true; EvClose h] /\
       fs w' !! logPath o = Some (NFile (file_content (fs w !! logPath o) +:+ line)) /\
       (fs w !! logPath o = None -> fs w' !! logPath o = Some (NFile line)) /\
       (forall p, p <> logPath o -> fs w' !! p = fs w !! p) /\
       fds w' = fds w ++ [(logPath o, false)])
  /\ (~ openable w (logPath o) ->
       FileLog_Log s level v w = Panic (PValue (VInt 0%Z)) w).
Proof.
  intros G h line. split.
  - intros O. exists (afterFileLog s o level v w).
    split; [by apply FileLog_Log_openable|]. split; [done|].
    unfold afterFileLog; cbn [fs fds]. split; [by rewrite lookup_insert_eq|].
    split; [intros E; by rewrite lookup_insert_eq, E|].
    split; [|done]. intros p Hne. by rewrite lookup_insert_ne.
  - by apply FileLog_Log_not_openable.
Qed.

Lemma FileLog_Log_open_append_close_witness :
  getFileLog worldFileLog 3 = Some (mkFileLog (mkLogBase []) None defaultLogPath) /\
  openable worldFileLog defaultLogPath /\
  exists w', @FileLog_Log testHost 3 "Emergency" [VString "msg"] worldFileLog = Ok w' /\
    trace w' = [EvOpen defaultLogPath 0;
                EvWrite (FileW 0) ("2009/11/10 23:00:00 Emergency [msg]" +:+ nl) true;
                EvClose 0] /\
    fds w' = [(defaultLogPath, false)].
Proof.
  assert (O : openable worldFileLog defaultLogPath) by (split; [discriminate|by vm_compute]).
  split; [reflexivity|]. split; [exact O|].
  destruct (proj1 (@FileLog_Log_open_append_close testHost 3 "Emergency" [VString "msg"]
    worldFileLog _ eq_refl) O) as (w' & E & T & _ & _ & _ & F).
  exists w'. split; [exact E|]. split; [exact T|exact F].
Defined.

Section Redirect.
Context `{Host}.

Lemma StdLog_call_eq s m v w :
  StdLog_call s m v w = Ok (log_Println (level_of m) v w).
Proof. by destruct m. Qed.

Lemma StdLog_calls_on_closed_file s h path calls w :
  log_out w = FileW h -> fds w !! h = Some (path, false) ->
  exists w', StdLog_calls s calls w = Ok w' /\
    log_out w' = FileW h /\ fs w' = fs w /\ fds w' = fds w /\ heap w' = heap w /\
    trace w' = trace w ++
      map (fun c : method * list value =>
             EvWrite (FileW h)
               (formatHeader (log_flags w) (log_prefix w) +:+ Sprintln (level_of c.1) c.2)
               false) calls.
Proof.
  revert w. induction calls as [|[m v] rest IH]; intros w LO FD; simpl.
  - exists w. by rewrite app_nil_r.
  - rewrite StdLog_call_eq. simpl. unfold log_Println. rewrite LO.
    rewrite (write_closed_file _ _ _ _ FD).
    destruct (IH (emit (EvWrite (FileW h)
        (formatHeader (log_flags w) (log_prefix w) +:+ Sprintln (level_of m) v) false) w))
      as (w' & E & LO' & FS' & FD' & HP' & T'); [done|done|].
    exists w'. split; [exact E|]. split; [done|]. split; [done|]. split; [done|].
    split; [done|]. rewrite T'. simpl. by rewrite <- app_assoc.
Qed.

End Redirect.

(** C9: FileLog.Log leaves the process-global std logger pointed at its own
    file.  After a FileLog.Log call that returns, the output of the std logger
    is the handle this call opened and has already closed, and the FileLog
    still refers to it.  Every later run of StdLog.Log and StdLog severity
    calls therefore sends each of its writes to that closed handle, where the
    write fails: nothing reaches the standard stream, no file changes, and the
    output stays redirected. *)
Theorem FileLog_Log_redirects_std_logger `{Host} (s : loc) (level : string)
    (v : list value) (w w' : World) :
  FileLog_Log s level v w = Ok w' ->
  exists h path,
    log_out w' = FileW h /\ fds w' !! h = Some (path, false) /\
    (exists o', getFileLog w' s = Some o' /\ f o' = Some h /\ logPath o' = path) /\
    forall s' calls, exists w'',
      StdLog_calls s' calls w' = Ok w'' /\
      log_out w'' = FileW h /\ fs w'' = fs w' /\
      trace w'' = trace w' ++
        map (fun c : method * list value =>
               EvWrite (FileW h)
                 (formatHeader (log_flags w) (log_prefix w)
                    +:+ Sprintln (level_of c.1) c.2)
                 false) calls.
Proof.
  intros E. apply FileLog_Log_inv in E as (o & G & O & ->).
  exists (length (fds w)), (logPath o).
  assert (FD : fds (afterFileLog s o level v w) !! length (fds w) = Some (logPath o, false))
    by (unfold afterFileLog; cbn [fds]; by apply list_lookup_middle).
  split; [done|]. split; [exact FD|]. split.
  - exists (mkFileLog (FileLog_LogBase o) (Some (length (fds w))) (logPath o)).
    split; [|done].
    unfold getFileLog, afterFileLog; cbn [heap]. by rewrite lookup_insert_eq.
  - intros s' calls.
    destruct (StdLog_calls_on_closed_file s' (length (fds w)) (logPath o) calls
                (afterFileLog s o level v w) eq_refl FD)
      as (w'' & E & LO & FS & _ & _ & T).
    exists w''. done.
Qed.

Lemma FileLog_Log_redirects_std_logger_witness :
  exists w', @FileLog_Log testHost 3 "Info" [VString "to the file"] worldFileLog = Ok w' /\
    exists h path,
      log_out w' = FileW h /\ fds w' !! h = Some (path, false) /\
      exists w'', @StdLog_calls testHost 4
          [(MLog "Arbitrary", [VString "lost"]); (MSev Alert, [VString "lost too"])] w'
          = Ok w'' /\
        fs w'' = fs w' /\
        trace w'' = trace w' ++
          [EvWrite (FileW h) ("2009/11/10 23:00:00 Arbitrary [lost]" +:+ nl) false;
           EvWrite (FileW h) ("2009/11/10 23:00:00 Alert [lost too]" +:+ nl) false].
Proof.
  eexists. split; [reflexivity|].
  destruct (@FileLog_Log_redirects_std_logger testHost 3 "Info" [VString "to the file"]
    worldFileLog _ eq_refl) as (h & path & LO & FD & _ & R).
  exists h, path. split; [exact LO|]. split; [exact FD|].
  destruct (R 4 [(MLog "Arbitrary", [VString "lost"]); (MSev Alert, [VString "lost too"])])
    as (w'' & E & _ & FS & T).
  exists w''. split; [exact E|]. split; [exact FS|exact T].
Defined.

(** ** FileLog.Init and the default path *)

Section DefaultPath.
Context `{Host}.

Lemma string_app_assoc (a b c : string) : (a +:+ b) +:+ c = a +:+ (b +:+ c).
Proof.
  induction a as [|x a IH]; [done|].
  change (String x ((a +:+ b) +:+ c) = String x (a +:+ (b +:+ c))). by rewrite IH.
Qed.

Lemma string_app_nil_r (a : string) : a +:+ "" = a.
Proof.
  induction a as [|x a IH]; [done|].
  change (String x (a +:+ "") = String x a). by rewrite IH.
Qed.


Lemma runInitializers_keeps_path want msg s fns w w' e :
  Forall (keepsPath s) fns ->
  runInitializers want msg (VRef KFileLog s) fns w = Ok (w', e) ->
  logPath <$> getFileLog w' s = logPath <$> getFileLog w s.
Proof.
  intros F. revert w. induction F as [|fn rest K _ IH]; intros w; simpl.
  - by intros [= <- _].
  - destruct fn; simpl; try by intros [= <- _].
    case_decide; [|by intros [= <- _]].
    intros E. apply bind_is_Ok in E as (w1 & E1 & E2).
    rewrite (IH _ E2). by eapply K.
Qed.

Lemma FileLog_call_eq s m v w :
  FileLog_call s m v w = FileLog_Log s (level_of m) v w.
Proof. by destruct m. Qed.

Lemma FileLog_calls_on_path s calls : forall w o,
  getFileLog w s = Some o -> openable w (logPath o) ->
  exists w', FileLog_calls s calls w = Ok w' /\
    logPath <$> getFileLog w' s = Some (logPath o) /\
    trace w' = trace w ++
      fileEvents (logPath o) (length (fds w))
        (formatHeader (log_flags w) (log_prefix w)) calls /\
    fs w' !! logPath o =
      (if calls is [] then fs w !! logPath o
       else Some (NFile (file_content (fs w !! logPath o)
                 +:+ fileLines (formatHeader (log_flags w) (log_prefix w)) calls))).
Proof.
  induction calls as [|[m v] rest IH]; intros w o G O; simpl.
  - exists w. rewrite G, app_nil_r. done.
  - rewrite FileLog_call_eq, (FileLog_Log_openable _ _ _ _ _ G O). simpl.
    set (w1 := afterFileLog s o (level_of m) v w).
    assert (G1 : getFileLog w1 s
                 = Some (mkFileLog (FileLog_LogBase o) (Some (length (fds w))) (logPath o))).
    { unfold getFileLog, w1, afterFileLog; cbn [heap]. by rewrite lookup_insert_eq. }
    assert (F1 : fs w1 !! logPath o = Some (NFile (file_content (fs w !! logPath o)
                   +:+ (formatHeader (log_flags w) (log_prefix w)
                        +:+ Sprintln (level_of m) v)))).
    { unfold w1, afterFileLog; cbn [fs]. by rewrite lookup_insert_eq. }
    assert (O1 : openable w1 (logPath o)).
    { destruct O as [NE _]. split; [done|]. by rewrite F1. }
    destruct (IH w1 _ G1 O1) as (w' & E & P & T & FS). cbn [logPath] in *.
    exists w'. split; [exact E|]. split; [exact P|]. split.
    + rewrite T. unfold w1, afterFileLog; cbn [trace fds log_flags log_prefix].
      rewrite length_app. cbn [length]. rewrite Nat.add_1_r.
      by rewrite <- app_assoc.
    + rewrite FS. destruct rest as [|c rest'].
      * rewrite F1. cbn [fileLines]. by rewrite string_app_nil_r.
      * rewrite F1. cbn [file_content]. f_equal. f_equal.
        unfold w1, afterFileLog; cbn [log_flags log_prefix].
        by rewrite string_app_assoc.
Qed.

Lemma FileLog_Init_path s w o w' e :
  getFileLog w s = Some o ->
  Forall (keepsPath s) (initializers (FileLog_LogBase o)) ->
  FileLog_Init s w = Ok (w', e) ->
  logPath <$> getFileLog w' s = Some defaultLogPath.
Proof.
  intros G F E. unfold FileLog_Init in E. rewrite G in E.
  rewrite (runInitializers_keeps_path _ _ _ _ _ _ _ F E).
  unfold getFileLog, store; simpl. by rewrite lookup_insert_eq.
Qed.

End DefaultPath.

(** C7: the default path.  Take a valid FileLog none of whose registered
    callbacks changes its path.  Without callbacks Init returns nil; and
    whenever Init returns, with nil or with the error, the path is
    "./owtorg-logger".  From then on every run of Log and severity calls on
    the FileLog (the path being openable) returns, opens exactly that path
    once per call, appends its lines to that file in call order, and leaves
    the path as it is. *)
Theorem FileLog_Init_default_path `{Host} (s : loc) (w : World) (o : FileLog) :
  getFileLog w s = Some o ->
  Forall (keepsPath s) (initializers (FileLog_LogBase o)) ->
  (initializers (FileLog_LogBase o) = [] -> exists w', FileLog_Init s w = Ok (w', None))
  /\ forall w' e, FileLog_Init s w = Ok (w', e) ->
       logPath <$> getFileLog w' s = Some defaultLogPath /\
       forall calls, openable w' defaultLogPath ->
         exists w'', FileLog_calls s calls w' = Ok w'' /\
           logPath <$> getFileLog w'' s = Some defaultLogPath /\
           trace w'' = trace w' ++
             fileEvents defaultLogPath (length (fds w'))
               (formatHeader (log_flags w') (log_prefix w')) calls /\
           fs w'' !! defaultLogPath =
             (if calls is [] then fs w' !! defaultLogPath
              else Some (NFile (file_content (fs w' !! defaultLogPath)
                   +:+ fileLines (formatHeader (log_flags w') (log_prefix w')) calls))).
Proof.
  intros G F. split.
  - intros E. unfold FileLog_Init. rewrite G, E. by eexists.
  - intros w' e E. pose proof (FileLog_Init_path s w o w' e G F E) as P.
    split; [exact P|]. intros calls O.
    destruct (getFileLog w' s) as [o'|] eqn:G'; [|done].
    injection P as P. rewrite <- P in O |- *.
    by apply FileLog_calls_on_path.
Qed.

Lemma FileLog_Init_default_path_witness :
  getFileLog worldNewFileLog 3 = Some (mkFileLog (mkLogBase []) None "") /\
  Forall (@keepsPath testHost 3) [] /\
  exists w' w'',
    @FileLog_Init testHost 3 worldNewFileLog = Ok (w', None) /\
    logPath <$> getFileLog w' 3 = Some defaultLogPath /\
    @FileLog_calls testHost 3 eightCalls w' = Ok w'' /\
    fs w'' !! defaultLogPath = Some (NFile (
      "Emergency [This is an Emergency message]" +:+ nl +:+
      "Alert [This is an Alert message]" +:+ nl +:+
      "Critical [This is a Critical message]" +:+ nl +:+
      "Error [This is an Error message]" +:+ nl +:+
      "Warning [This is a Warning message]" +:+ nl +:+
      "Notice [This is a Notice]" +:+ nl +:+
      "Info [This is an Info message]" +:+ nl +:+
      "Debug [This is a Debug message]" +:+ nl)).
Proof.
  split; [reflexivity|]. split; [constructor|].
  destruct (@FileLog_Init_default_path testHost 3 worldNewFileLog _ eq_refl (List.Forall_nil _))
    as [T R].
  destruct (T eq_refl) as (w' & E).
  destruct (R w' None E) as (P & C).
  assert (E' : @FileLog_Init testHost 3 worldNewFileLog
               = Ok (store 3 (OFileLog (mkFileLog (mkLogBase []) None defaultLogPath))
                       worldNewFileLog, None)) by reflexivity.
  assert (W : w' = store 3 (OFileLog (mkFileLog (mkLogBase []) None defaultLogPath))
                     worldNewFileLog) by congruence.
  assert (O : openable w' defaultLogPath).
  { rewrite W. split; [discriminate|by vm_compute]. }
  destruct (C eightCalls O) as (w'' & E2 & _ & _ & FS).
  exists w', w''. split; [exact E|]. split; [exact P|]. split; [exact E2|].
  rewrite FS, W. reflexivity.
Defined.

(** ** The output line *)




(** ** Fan-out *)

Section FanOut.
Context `{Host}.


Lemma FmtLog_call_eq s m v w :
  FmtLog_call s m v w = Ok (fmt_Println (level_of m) v w).
Proof. by destruct m. Qed.



Lemma writes_snoc_write t to data ok :
  writes (t ++ [EvWrite to data ok]) = writes t ++ [EvWrite to data ok].
Proof. unfold writes. by rewrite filter_app. Qed.

Lemma writes_file_events t path h data :
  writes (t ++ [EvOpen path h; EvWrite (FileW h) data true; EvClose h])
  = writes t ++ [EvWrite (FileW h) data true].
Proof. unfold writes. by rewrite filter_app. Qed.

Lemma usable_write to data w x : usable w x -> usable (write to data w) x.
Proof.
  destruct x as [| | | | |k l]; try done. destruct k; try done.
  intros (o & G & NE & ND). exists o.
  destruct (write_frame to data w) as (HP & _).
  split; [unfold getFileLog; by rewrite HP|].
  split; [done|]. by apply write_not_denied.
Qed.

Lemma usable_afterFileLog s o level v w x :
  getFileLog w s = Some o ->
  usable w x -> usable (afterFileLog s o level v w) x.
Proof.
  intros G. destruct x as [| | | | |k l]; try done. destruct k; try done.
  intros (o' & G' & NE & ND).
  assert (FS : forall p, fs w !! p <> Some NDenied ->
                 fs (afterFileLog s o level v w) !! p <> Some NDenied).
  { intros p Hp. unfold afterFileLog; cbn [fs].
    destruct (decide (logPath o = p)) as [->|Hne].
    - by rewrite lookup_insert_eq.
    - by rewrite lookup_insert_ne. }
  destruct (decide (s = l)) as [->|Hne].
  - assert (o' = o) as -> by congruence.
    eexists. split.
    + unfold getFileLog, afterFileLog; cbn [heap]. by rewrite lookup_insert_eq.
    + split; [done|]. by apply FS.
  - exists o'. split.
    + unfold getFileLog, afterFileLog; cbn [heap]. by rewrite lookup_insert_ne.
    + split; [done|]. by apply FS.
Qed.

(** One call on a usable backend: it returns, adds one write, and leaves
    the std logger's header and the usable members as they were. *)
Lemma backend_call_step fuel m v x w :
  usable w x ->
  exists k l w1 e, x = VRef k l /\
    Logger_call (S fuel) m v (k, l) w = Ok w1 /\
    writes (trace w1) = writes (trace w) ++ [e] /\
    wroteBy (formatHeader (log_flags w) (log_prefix w)) (level_of m) v x e /\
    log_flags w1 = log_flags w /\ log_prefix w1 = log_prefix w /\
    (forall y, usable w y -> usable w1 y).
Proof.
  destruct x as [| | | | |k l]; try done. destruct k; try done; intros U.
  - exists KFmtLog, l. eexists. eexists. split; [done|]. simpl.
    rewrite FmtLog_call_eq. split; [done|]. unfold fmt_Println, write, emit.
    cbn [trace]. split; [apply writes_snoc_write|]. split; [done|].
    split; [done|]. split; [done|]. done.
  - exists KStdLog, l.
    destruct (write_trace (log_out w)
      (formatHeader (log_flags w) (log_prefix w) +:+ Sprintln (level_of m) v) w) as [ok T].
    destruct (write_frame (log_out w)
      (formatHeader (log_flags w) (log_prefix w) +:+ Sprintln (level_of m) v) w)
      as (_ & _ & _ & FL & PR).
    eexists. eexists. split; [done|]. simpl. rewrite StdLog_call_eq.
    split; [done|]. unfold log_Println. rewrite T.
    split; [apply writes_snoc_write|]. split; [done|].
    split; [done|]. split; [done|]. intros y. apply usable_write.
  - destruct U as (o & G & O). exists KFileLog, l. eexists. eexists.
    split; [done|]. simpl. rewrite FileLog_call_eq.
    rewrite (FileLog_Log_openable _ _ _ _ _ G O). split; [done|].
    unfold afterFileLog at 1; cbn [trace].
    split; [apply writes_file_events|]. split; [by (split; [eexists|])|].
    split; [done|]. split; [done|]. intros y. by apply usable_afterFileLog.
Qed.

Lemma backends_fan_out fuel m v ms : forall w,
  Forall (usable w) ms ->
  exists w' ws,
    forEachLogger (Logger_call (S fuel) m v) ms w = Ok w' /\
    writes (trace w') = writes (trace w) ++ ws /\
    Forall2 (wroteBy (formatHeader (log_flags w) (log_prefix w)) (level_of m) v) ms ws.
Proof.
  induction ms as [|x rest IH]; intros w F.
  - exists w, []. simpl. rewrite app_nil_r. done.
  - apply Forall_cons in F as [U F].
    destruct (backend_call_step fuel m v x w U)
      as (k & l & w1 & e & -> & E & W & WB & FL & PR & Keep).
    destruct (IH w1) as (w' & ws & E' & W' & F2).
    { eapply Forall_impl; [exact F|]. exact Keep. }
    exists w', (e :: ws). split.
    + cbn [forEachLogger assertLogger]. rewrite bind_Ok, E, bind_Ok. exact E'.
    + split; [rewrite W', W; by rewrite <- app_assoc|].
      constructor; [exact WB|]. by rewrite <- FL, <- PR.
Qed.

End FanOut.




(** ** The assertions of the test file, replayed on the model *)

(** TestStdLog, first call. *)
Example TestStdLog_Emergency :
  @StdLog_Log testHost 4 "Emergency" [VString "This is a Log message"]
      (captureSetup startWorld)
  = Ok (emit (EvWrite (OtherW 0) ("Emergency [This is a Log message]" +:+ nl) true)
          (captureSetup startWorld)).
Proof. reflexivity. Qed.

(** TestFileLog, first half: OnInit(tlCallback), Init, eight calls, and the
    file the callback named holds the eight lines. *)
Example TestFileLog_custom_path :
  (w1 ← OnInit (KFileLog, 3) [tlCallback] worldNewFileLog;
   r ← @Logger_Init testHost (KFileLog, 3) w1;
   w2 ← @Logger_calls testHost 1 (KFileLog, 3) eightCalls r.1;
   Ok (r.2, fs w2 !! testPath, fs w2 !! defaultLogPath))
  = Ok (None, Some (NFile eightLines), None).
Proof. reflexivity. Qed.

(** TestFileLog, second half: a FileLog added to a stack logs to the default
    path. *)
Example TestFileLog_on_stack :
  (w1 ← @Stack_Add testHost 1 [VRef KFileLog 3]
          (store 1 (zero KStack) worldNewFileLog);
   w2 ← @Logger_calls testHost 2 (KStack, 1) eightCalls w1;
   Ok (fs w2 !! defaultLogPath))
  = Ok (Some (NFile eightLines)).
Proof. reflexivity. Qed.

(** The comment on Stack.Init asks for callbacks of type func(s *Stack); the
    assertion accepts func(s Logger) only, so such a callback is refused. *)
Example Stack_Init_refuses_func_of_Stack_pointer :
  (r ← @Stack_Init testHost 1
         (store 1 (OStack (mkStack (mkLogBase [VFunc SigStack 7]) [])) startWorld);
   Ok r.2)
  = Ok (Some msgLogger).
Proof. reflexivity. Qed.

(** ** What a logging call keeps *)

Section Keeps.
Context `{Host}.

Lemma forEachLogger_endsIn (R : World -> World -> Prop)
    (dispatch : Logger -> World -> Res World) ms :
  (forall w, R w w) ->
  (forall a b c, R a b -> R b c -> R a c) ->
  (forall lg w, endsIn (dispatch lg w) (R w)) ->
  forall w, endsIn (forEachLogger dispatch ms w) (R w).
Proof.
  intros Rrefl Rtrans Hd. induction ms as [|x rest IH]; intros w; simpl; [done|].
  destruct x; simpl; try done.
  pose proof (Hd (k, l) w) as S1.
  destruct (dispatch (k, l) w) as [w1|p w1|]; simpl in *; [|done..].
  pose proof (IH w1) as S2.
  destruct (forEachLogger dispatch rest w1) as [w2|p w2|]; simpl in *; eauto.
Qed.

(** Whatever holds across one write and across one successful FileLog.Log,
    and composes, holds across every logging call on every logger. *)
Lemma Logger_call_endsIn (R : World -> World -> Prop) :
  (forall w, R w w) ->
  (forall a b c, R a b -> R b c -> R a c) ->
  (forall to data w, R w (write to data w)) ->
  (forall s o level v w, getFileLog w s = Some o -> openable w (logPath o) ->
     R w (afterFileLog s o level v w)) ->
  forall fuel m v lg w, endsIn (Logger_call fuel m v lg w) (R w).
Proof.
  intros Rrefl Rtrans Rwrite Rfile.
  induction fuel as [|n IH]; intros m v [k s] w; simpl; [done|].
  destruct k; simpl.
  - rewrite FmtLog_call_eq. apply Rwrite.
  - rewrite StdLog_call_eq. apply Rwrite.
  - rewrite FileLog_call_eq.
    destruct (getFileLog w s) as [o|] eqn:G.
    + destruct (decide (openable w (logPath o))) as [O|NO].
      * rewrite (FileLog_Log_openable _ _ _ _ _ G O). by apply Rfile.
      * rewrite (FileLog_Log_not_openable _ _ _ _ _ G NO). apply Rrefl.
    + unfold FileLog_Log. rewrite G. apply Rrefl.
  - unfold Stack_call. destruct (getStack w s) as [o|]; [|apply Rrefl].
    apply forEachLogger_endsIn; [done|done|]. intros lg w0. apply IH.
Qed.

Lemma sameConfig_refl w : sameConfig w w.
Proof. done. Qed.

Lemma sameConfig_trans a b c : sameConfig a b -> sameConfig b c -> sameConfig a c.
Proof.
  intros (H1 & F1 & P1) (H2 & F2 & P2). split; [|split; congruence].
  intros l. by rewrite H2, H1.
Qed.

Lemma sameConfig_write to data w : sameConfig w (write to data w).
Proof.
  destruct (write_frame to data w) as (HP & _ & _ & FL & PR).
  split; [|done]. intros l. by rewrite HP.
Qed.

Lemma sameConfig_afterFileLog s o level v w :
  getFileLog w s = Some o -> sameConfig w (afterFileLog s o level v w).
Proof.
  intros G. split; [|done]. intros l. unfold afterFileLog; cbn [heap].
  destruct (decide (s = l)) as [->|Hne].
  - rewrite lookup_insert_eq. unfold getFileLog in G.
    destruct (heap w !! l) as [[x|x|x|x]|]; try done. by injection G as ->.
  - by rewrite lookup_insert_ne.
Qed.

Lemma closedSince_trans a b c : closedSince a b -> closedSince b c -> closedSince a c.
Proof.
  intros [p1 E1] [p2 E2]. exists (p1 ++ p2).
  by rewrite E2, E1, map_app, app_assoc.
Qed.

Lemma appendedSince_refl w : appendedSince w w.
Proof.
  split; [exists []; by rewrite app_nil_r|].
  intros path. split; [done|]. exists "". by rewrite string_app_nil_r.
Qed.

Lemma appendedSince_trans a b c :
  appendedSince a b -> appendedSince b c -> appendedSince a c.
Proof.
  intros [[e1 T1] F1] [[e2 T2] F2]. split.
  - exists (e1 ++ e2). by rewrite T2, T1, app_assoc.
  - intros path. destruct (F1 path) as [S1 [m1 C1]]. destruct (F2 path) as [S2 [m2 C2]].
    split; [auto|]. exists (m1 +:+ m2). by rewrite C2, C1, string_app_assoc.
Qed.

Lemma appendedSince_write to data w : appendedSince w (write to data w).
Proof.
  split; [destruct (write_trace to data w) as [ok T]; by eexists|].
  intros path. unfold write.
  destruct to as [| |h|id]; try (split; [done|]; exists ""; by rewrite string_app_nil_r).
  destruct (fds w !! h) as [[p [|]]|];
    try (split; [done|]; exists ""; by rewrite string_app_nil_r).
  cbn [fs emit set_fs]. destruct (decide (p = path)) as [->|Hne].
  - rewrite lookup_insert_eq. split; [done|]. by exists data.
  - rewrite lookup_insert_ne by done. split; [done|].
    exists "". by rewrite string_app_nil_r.
Qed.

Lemma appendedSince_afterFileLog s o level v w :
  appendedSince w (afterFileLog s o level v w).
Proof.
  split; [unfold afterFileLog; cbn [trace]; by eexists|].
  intros path. unfold afterFileLog; cbn [fs].
  destruct (decide (logPath o = path)) as [->|Hne].
  - rewrite lookup_insert_eq. split; [done|]. by eexists.
  - rewrite lookup_insert_ne by done. split; [done|].
    exists "". by rewrite string_app_nil_r.
Qed.

End Keeps.

Section KeepsFacts.
Context `{Host}.

Lemma config_eq_parts (o o' : obj) :
  config o' = config o ->
  kind_of o' = kind_of o /\ base o' = base o /\
  (forall x x', o = OStack x -> o' = OStack x' -> x' = x) /\
  (forall x x', o = OFileLog x -> o' = OFileLog x' -> logPath x' = logPath x).
Proof.
  intros E.
  destruct o as [x|x|x|x], o' as [y|y|y|y]; simpl in E; try discriminate.
  - injection E as ->. repeat split; done.
  - injection E as ->. repeat split; done.
  - injection E as B P. repeat split; try done.
    by intros a b [= <-] [= <-].
  - injection E as ->. repeat split; try done.
    by intros a b [= <-] [= <-].
Qed.

Lemma sameConfig_lookup w w' l :
  sameConfig w w' ->
  match heap w !! l, heap w' !! l with
  | Some o, Some o' => config o' = config o
  | None, None => True
  | _, _ => False
  end.
Proof.
  intros [C _]. specialize (C l).
  destruct (heap w !! l), (heap w' !! l); simpl in *; congruence || done.
Qed.


Lemma sameConfig_members w w' s : sameConfig w w' -> members s w' = members s w.
Proof.
  intros C. pose proof (sameConfig_lookup w w' s C) as L.
  unfold members, getStack.
  destruct (heap w !! s) as [o|], (heap w' !! s) as [o'|]; try done.
  destruct (config_eq_parts o o' L) as (K & _ & St & _).
  destruct o as [x|x|x|x], o' as [y|y|y|y]; simpl in K; try done.
  by rewrite (St x y).
Qed.

Lemma sameConfig_logPath w w' s :
  sameConfig w w' -> logPath <$> getFileLog w' s = logPath <$> getFileLog w s.
Proof.
  intros C. pose proof (sameConfig_lookup w w' s C) as L.
  unfold getFileLog.
  destruct (heap w !! s) as [o|], (heap w' !! s) as [o'|]; try done.
  destruct (config_eq_parts o o' L) as (K & _ & _ & Fl).
  destruct o as [x|x|x|x], o' as [y|y|y|y]; simpl in K; try done.
  simpl. by rewrite (Fl x y).
Qed.

Lemma closedSince_open_before w w' h p :
  closedSince w w' -> fds w' !! h = Some (p, true) -> fds w !! h = Some (p, true).
Proof.
  intros [paths E] L. rewrite E in L. apply lookup_app_Some in L as [L|[_ L]]; [done|].
  apply list_elem_of_lookup_2, list_elem_of_In, in_map_iff in L as (q & [= _] & _).
Qed.

End KeepsFacts.


(** X2: no logging call leaks a file handle.  In the world where a Log or
    severity call on any logger ends, returned or panicked, at any depth of
    nesting, the handle table is the former one followed by handles that are
    closed: a handle that is open afterwards was open before. *)
Theorem Logger_call_leaves_no_open_handle `{Host} (fuel : nat) (m : method)
    (v : list value) (lg : Logger) (w : World) :
  endsIn (Logger_call fuel m v lg w) (fun w' =>
    closedSince w w' /\
    forall h p, fds w' !! h = Some (p, true) -> fds w !! h = Some (p, true)).
Proof.
  assert (E : endsIn (Logger_call fuel m v lg w) (closedSince w)).
  { apply Logger_call_endsIn.
    - intros w0. exists []. by rewrite app_nil_r.
    - apply closedSince_trans.
    - intros to data w0. exists []. destruct (write_frame to data w0) as (_ & FD & _).
      by rewrite FD, app_nil_r.
    - intros s o level v0 w0 _ _. by exists [logPath o]. }
  destruct (Logger_call fuel m v lg w) as [w'|p w'|]; simpl in *; [| |done];
    (split; [done|]; intros h q; by apply closedSince_open_before).
Qed.

(** X3: logging only ever appends.  In the world where a Log or severity
    call on any logger ends, returned or panicked, the earlier system calls
    are a prefix of the trace, no file has disappeared, and every file
    starts with the content it had: nothing written before is truncated or
    overwritten. *)
Theorem Logger_call_appends_only `{Host} (fuel : nat) (m : method)
    (v : list value) (lg : Logger) (w : World) :
  endsIn (Logger_call fuel m v lg w) (appendedSince w).
Proof.
  apply Logger_call_endsIn.
  - apply appendedSince_refl.
  - apply appendedSince_trans.
  - apply appendedSince_write.
  - intros s o level v0 w0 _ _. apply appendedSince_afterFileLog.
Qed.

(** ** Add and Set on backends without callbacks *)

Section Plain.
Context `{Host}.


Lemma resetPath_frame x w :
  fs (resetPath x w) = fs w /\ fds (resetPath x w) = fds w /\
  log_out (resetPath x w) = log_out w /\ log_flags (resetPath x w) = log_flags w /\
  log_prefix (resetPath x w) = log_prefix w /\ trace (resetPath x w) = trace w.
Proof. unfold resetPath. by destruct (getFileLog w x). Qed.

Lemma resetPaths_frame l w :
  fs (resetPaths l w) = fs w /\ fds (resetPaths l w) = fds w /\
  log_out (resetPaths l w) = log_out w /\ log_flags (resetPaths l w) = log_flags w /\
  log_prefix (resetPaths l w) = log_prefix w /\ trace (resetPaths l w) = trace w.
Proof.
  revert w. induction l as [|x rest IH]; intros w; simpl; [done|].
  destruct x as [| | | | |[] x]; try apply IH.
  destruct (IH (resetPath x w)) as (A & B & C & D & E & F).
  destruct (resetPath_frame x w) as (A' & B' & C' & D' & E' & F').
  repeat split; congruence.
Qed.

Lemma heap_resetPath x w l :
  heap (resetPath x w) !! l =
  match getFileLog w x with
  | Some o =>
      if decide (x = l)
      then Some (OFileLog (mkFileLog (FileLog_LogBase o) (f o) defaultLogPath))
      else heap w !! l
  | None => heap w !! l
  end.
Proof.
  unfold resetPath. destruct (getFileLog w x) as [o|]; [|done].
  unfold store; simpl. case_decide as E.
  - subst. apply lookup_insert_eq.
  - by apply lookup_insert_ne.
Qed.

Lemma getStack_resetPath x w s : getStack (resetPath x w) s = getStack w s.
Proof.
  unfold getStack at 1. rewrite heap_resetPath.
  destruct (getFileLog w x) as [o|] eqn:G; [|done].
  case_decide as E; [|done]. subst.
  unfold getStack. unfold getFileLog in G.
  by destruct (heap w !! s) as [[]|].
Qed.

Lemma getStack_resetPaths l w s : getStack (resetPaths l w) s = getStack w s.
Proof.
  revert w. induction l as [|x rest IH]; intros w; simpl; [done|].
  destruct x as [| | | | |[] x]; try apply IH.
  by rewrite IH, getStack_resetPath.
Qed.

Lemma pending_resetPath x w lg : pending lg (resetPath x w) = pending lg w.
Proof.
  unfold pending, deref. rewrite heap_resetPath.
  destruct (getFileLog w x) as [o|] eqn:G; [|done].
  case_decide as E; [|done]. subst. unfold getFileLog in G.
  destruct (heap w !! lg.2) as [[]|]; try done. injection G as ->.
  simpl. by case_decide.
Qed.

Lemma plain_Init_eq k l w :
  k <> KStack -> pending (k, l) w = Some [] ->
  Logger_Init (k, l) w = Ok (resetPaths [VRef k l] w, None).
Proof.
  intros NS P. unfold pending in P.
  destruct (deref (k, l) w) as [o|] eqn:D; [|done].
  injection P as P. unfold Logger_Init; simpl.
  destruct k; try done.
  - destruct o as [o|o|o|o]; try (apply deref_Some in D as [_ K]; done).
    simpl in P. unfold FmtLog_Init. apply getFmtLog_deref in D. by rewrite D, P.
  - destruct o as [o|o|o|o]; try (apply deref_Some in D as [_ K]; done).
    simpl in P. unfold StdLog_Init. apply getStdLog_deref in D. by rewrite D, P.
  - destruct o as [o|o|o|o]; try (apply deref_Some in D as [_ K]; done).
    simpl in P. unfold FileLog_Init, resetPath. apply getFileLog_deref in D.
    by rewrite D, P.
Qed.

Lemma plainBackend_resetPath x w v : plainBackend w v -> plainBackend (resetPath x w) v.
Proof. intros (k & l & -> & NS & P). exists k, l. by rewrite pending_resetPath. Qed.

Lemma plain_initEach_eq l w :
  Forall (plainBackend w) l -> initEach l w = Ok (resetPaths l w).
Proof.
  revert w. induction l as [|v rest IH]; intros w F; [done|].
  apply Forall_cons in F as [(k & x & -> & NS & P) F].
  cbn [initEach assertLogger]. rewrite bind_Ok, (plain_Init_eq k x w NS P), bind_Ok.
  cbn [fst resetPaths]. destruct k; try done.
  - by apply IH.
  - by apply IH.
  - apply IH. eapply Forall_impl; [exact F|]. apply plainBackend_resetPath.
Qed.

Lemma plainBackend_implementsLogger w v : plainBackend w v -> implementsLogger v = true.
Proof. by intros (k & l & -> & _). Qed.

(** A backend without callbacks is not stored where a stack is. *)
Lemma plainBackend_store_stack s X w v :
  is_Some (getStack w s) ->
  plainBackend w v -> plainBackend (store s (OStack X) w) v.
Proof.
  intros [o G] (k & l & -> & NS & P). exists k, l. split; [done|]. split; [done|].
  unfold pending, deref, store in *; simpl in *.
  destruct (decide (s = l)) as [->|Hne].
  - unfold getStack in G. destruct (heap w !! l) as [[]|]; try done.
    simpl in P. case_decide as K; [|done]. by destruct NS.
  - by rewrite lookup_insert_ne.
Qed.

Lemma resetPath_store_stack x s X w :
  getFileLog w s = None ->
  resetPath x (store s (OStack X) w) = store s (OStack X) (resetPath x w).
Proof.
  intros NF. unfold resetPath at 1. unfold getFileLog, store at 1; simpl.
  destruct (decide (s = x)) as [->|Hne].
  - rewrite lookup_insert_eq. unfold resetPath. by rewrite NF.
  - rewrite lookup_insert_ne by done. unfold resetPath, getFileLog.
    destruct (heap w !! x) as [[o|o|o|o]|]; try done.
    unfold store, set_heap; simpl. f_equal. by apply insert_insert_ne.
Qed.

Lemma getFileLog_resetPath_None x w s :
  getFileLog w s = None -> getFileLog (resetPath x w) s = None.
Proof.
  intros NF. unfold getFileLog at 1. rewrite heap_resetPath.
  destruct (getFileLog w x) as [o|] eqn:G; [|exact NF].
  case_decide as E; [subst; congruence|exact NF].
Qed.

Lemma resetPaths_store_stack l s X w :
  getFileLog w s = None ->
  resetPaths l (store s (OStack X) w) = store s (OStack X) (resetPaths l w).
Proof.
  revert w. induction l as [|v rest IH]; intros w NF; simpl; [done|].
  destruct v as [| | | | |[] x]; try by apply IH.
  rewrite resetPath_store_stack by done. apply IH. by apply getFileLog_resetPath_None.
Qed.

Lemma getStack_not_FileLog w s o : getStack w s = Some o -> getFileLog w s = None.
Proof. unfold getStack, getFileLog. by destruct (heap w !! s) as [[]|]. Qed.

Lemma getFileLog_resetPaths l : forall w x o,
  getFileLog w x = Some o ->
  exists o', getFileLog (resetPaths l w) x = Some o' /\
    (logPath o' = logPath o \/ logPath o' = defaultLogPath) /\
    (VRef KFileLog x ∈ l -> logPath o' = defaultLogPath).
Proof.
  induction l as [|v rest IH]; intros w x o G; simpl.
  - exists o. split; [done|]. split; [by left|]. intros E. by apply elem_of_nil in E.
  - assert (Skip : v <> VRef KFileLog x -> VRef KFileLog x ∈ v :: rest -> VRef KFileLog x ∈ rest).
    { intros Hne E. apply elem_of_cons in E as [E|E]; [congruence|done]. }
    destruct v as [| | | | |k y];
      try (destruct (IH w x o G) as (o' & G' & P1 & P2); exists o';
           split; [done|]; split; [done|]; intros E; apply P2, Skip; done).
    destruct k;
      try (destruct (IH w x o G) as (o' & G' & P1 & P2); exists o';
           split; [done|]; split; [done|]; intros E; apply P2, Skip; done).
    destruct (decide (y = x)) as [->|Hne].
    + assert (G1 : getFileLog (resetPath x w) x
                   = Some (mkFileLog (FileLog_LogBase o) (f o) defaultLogPath)).
      { unfold getFileLog at 1. rewrite heap_resetPath, G. by rewrite decide_True. }
      destruct (IH _ x _ G1) as (o' & G' & [P1|P1] & P2); exists o';
        (split; [done|]); (split; [by right|]); done.
    + assert (G1 : getFileLog (resetPath y w) x = Some o).
      { unfold getFileLog at 1. rewrite heap_resetPath.
        destruct (getFileLog w y); [by rewrite decide_False|]; exact G. }
      destruct (IH _ x _ G1) as (o' & G' & P1 & P2). exists o'.
      split; [done|]. split; [done|]. intros E. apply P2, Skip; [congruence|done].
Qed.

End Plain.

Section PlainAddSet.
Context `{Host}.


Lemma getStack_store s X w : getStack (store s (OStack X) w) s = Some X.
Proof. unfold getStack, store; simpl. by rewrite lookup_insert_eq. Qed.

Lemma plain_Add_eq s l w o :
  getStack w s = Some o -> Forall (plainBackend w) l ->
  Stack_Add s l w =
    Ok (store s (OStack (mkStack (Stack_LogBase o) (loggers o ++ l))) (resetPaths l w)).
Proof.
  intros G F. unfold Stack_Add. rewrite (plain_initEach_eq l w F), bind_Ok.
  by rewrite getStack_resetPaths, G.
Qed.

Lemma plain_Set_eq s l w o :
  getStack w s = Some o -> Forall (plainBackend w) l ->
  Stack_Set s l w = Ok (store s (OStack (mkStack (Stack_LogBase o) l)) (resetPaths l w)).
Proof.
  intros G F. unfold Stack_Set. rewrite G.
  rewrite plain_initEach_eq.
  - f_equal. apply resetPaths_store_stack. by eapply getStack_not_FileLog.
  - eapply Forall_impl; [exact F|]. intros v. by apply plainBackend_store_stack.
Qed.

Lemma usable_after_plain s X l w y :
  is_Some (getStack w s) ->
  fs w !! defaultLogPath <> Some NDenied ->
  usable w y \/ (plainBackend w y /\ y ∈ l) ->
  usable (store s (OStack X) (resetPaths l w)) y.
Proof.
  intros [o G] ND U.
  destruct y as [| | | | |k x]; try (destruct U as [U|[(? & ? & ? & _) _]]; done).
  destruct k; try done.
  - assert (Hx : exists ox, getFileLog w x = Some ox /\
                   (openable w (logPath ox) \/ VRef KFileLog x ∈ l)).
    { destruct U as [(ox & Gx & O)|[(k & x' & [= <- <-] & _ & P) E]]; [eauto|].
      unfold pending in P. destruct (deref (KFileLog, x) w) as [ox|] eqn:D; [|done].
      pose proof D as D'. apply deref_Some in D' as [_ K]. simpl in K.
      destruct ox as [ox|ox|ox|ox]; try done.
      apply getFileLog_deref in D. eauto. }
    destruct Hx as (ox & Gx & Hx).
    destruct (getFileLog_resetPaths l w x ox Gx) as (o' & G' & P1 & P2).
    destruct (resetPaths_frame l w) as (FS & _).
    exists o'. split.
    + unfold getFileLog, store; simpl.
      destruct (decide (s = x)) as [->|Hne].
      * apply getStack_not_FileLog in G. congruence.
      * by rewrite lookup_insert_ne.
    + assert (OD : openable (store s (OStack X) (resetPaths l w)) defaultLogPath).
      { split; [discriminate|]. unfold store; simpl. by rewrite FS. }
      destruct Hx as [O|E].
      * destruct P1 as [->| ->]; [|done].
        destruct O as [NE NDx]. split; [done|]. unfold store; simpl. by rewrite FS.
      * by rewrite (P2 E).
  - destruct U as [U|[(? & ? & [= <- <-] & NS & _) _]]; done.
Qed.

Lemma forEachLogger_app dispatch pre rest w :
  forEachLogger dispatch (pre ++ rest) w =
  (w1 ← forEachLogger dispatch pre w; forEachLogger dispatch rest w1).
Proof.
  revert w. induction pre as [|x pre IH]; intros w; simpl; [done|].
  destruct x; simpl; try done.
  destruct (dispatch (k, l) w); simpl; [|done..]. apply IH.
Qed.

Lemma failing_sameConfig w w1 x p : sameConfig w w1 -> failing w x p -> failing w1 x p.
Proof.
  intros C [y NL|l P|t rest M].
  - by constructor.
  - constructor. by rewrite (sameConfig_logPath w w1 l C).
  - econstructor. by rewrite (sameConfig_members w w1 t C).
Qed.

Lemma failing_panics fuel m v x p post w :
  failing w x p ->
  forEachLogger (Logger_call (S fuel) m v) (x :: post) w = Panic p w.
Proof.
  intros [y NL|l P|t rest M]; simpl.
  - by destruct y.
  - rewrite FileLog_call_eq.
    destruct (getFileLog w l) as [o|] eqn:G; [|done]. injection P as P.
    rewrite (FileLog_Log_not_openable l o); [done|done|].
    intros [NE _]. by apply NE.
  - unfold Stack_call, members in *.
    destruct (getStack w t) as [o|]; [|done]. injection M as ->. done.
Qed.

End PlainAddSet.



(** X5: Set forgets the previous members.  What Set(l) does is the same
    whatever the member sequence was before, the nil member left by Init
    included.  For backends without callbacks Set returns and the members
    are exactly l.  Set of the empty sequence returns and leaves a stack on
    which every logging call returns at once, the world unchanged. *)
Theorem Stack_Set_replaces_members `{Host} (s : loc) (l : list value)
    (w : World) (o : Stack) :
  getStack w s = Some o ->
  (forall ms, Stack_Set s l (store s (OStack (mkStack (Stack_LogBase o) ms)) w)
              = Stack_Set s l w)
  /\ (Forall (plainBackend w) l ->
      exists w', Stack_Set s l w = Ok w' /\ members s w' = Some l)
  /\ (exists w', Stack_Set s [] w = Ok w' /\ members s w' = Some [] /\
        forall fuel m v, Stack_call (Logger_call fuel) s m v w' = Ok w').
Proof.
  intros G. split; [|split].
  - intros ms. unfold Stack_Set. by rewrite getStack_store, G, store_store.
  - intros F. eexists. split; [by apply plain_Set_eq|apply members_store_stack].
  - eexists. split; [by apply (plain_Set_eq s [] w o G)|].
    split; [apply members_store_stack|].
    intros fuel m v. unfold Stack_call. by rewrite getStack_store.
Qed.

Lemma Stack_Set_replaces_members_witness :
  getStack worldStackOfOne 1 = Some (mkStack (mkLogBase []) [VRef KFmtLog 2]) /\
  (exists w1 w', @Stack_Init testHost 1 worldStackOfOne = Ok (w1, None) /\
     members 1 w1 = Some [VNil] /\
     @Stack_Set testHost 1 [VRef KFmtLog 2] w1 = Ok w' /\
     @Stack_Set testHost 1 [VRef KFmtLog 2] worldStackOfOne = Ok w' /\
     members 1 w' = Some [VRef KFmtLog 2]).
Proof.
  split; [reflexivity|].
  destruct (@Stack_Set_replaces_members testHost 1 [VRef KFmtLog 2] worldStackOfOne _ eq_refl)
    as (Forget & Plain & _).
  destruct Plain as (w' & E & M).
  { repeat constructor. exists KFmtLog, 2.
    split; [reflexivity|split; [discriminate|reflexivity]]. }
  exists (store 1 (OStack (mkStack (mkLogBase []) [VNil])) worldStackOfOne), w'.
  split; [reflexivity|]. split; [reflexivity|]. split; [|split; [exact E|exact M]].
  rewrite <- E. apply (Forget [VNil]).
Defined.

(** X6: a non-Logger argument and the members.  Take loggers without
    callbacks followed by a value that is no Logger.  Add panics at the
    assertion with the members of the stack exactly as they were: nothing of
    the call has been added.  Set panics at the same place with the whole
    supplied sequence, the offending value included, already stored as the
    members. *)
Theorem Stack_Add_panic_adds_nothing_Set_panic_keeps_all `{Host} (s : loc)
    (pre post : list value) (v : value) (w : World) (o : Stack) :
  getStack w s = Some o ->
  Forall (plainBackend w) pre ->
  implementsLogger v = false ->
  (exists w1, Stack_Add s (pre ++ v :: post) w = Panic (PTypeAssert v) w1 /\
     members s w1 = Some (loggers o))
  /\ (exists w2, Stack_Set s (pre ++ v :: post) w = Panic (PTypeAssert v) w2 /\
     members s w2 = Some (pre ++ v :: post)).
Proof.
  intros G F NL.
  assert (FL : Forall (fun x => implementsLogger x = true) pre).
  { eapply Forall_impl; [exact F|]. intros x. apply plainBackend_implementsLogger. }
  split.
  - exists (resetPaths pre w). unfold Stack_Add.
    rewrite (initEach_first_non_Logger pre v post w FL NL).
    rewrite (plain_initEach_eq pre w F). split; [done|].
    unfold members. by rewrite getStack_resetPaths, G.
  - eexists. unfold Stack_Set. rewrite G.
    rewrite (initEach_first_non_Logger pre v post _ FL NL).
    rewrite plain_initEach_eq.
    + split; [reflexivity|].
      rewrite resetPaths_store_stack by (by eapply getStack_not_FileLog).
      apply members_store_stack.
    + eapply Forall_impl; [exact F|]. intros x. by apply plainBackend_store_stack.
Qed.

Lemma Stack_Add_panic_adds_nothing_Set_panic_keeps_all_witness :
  getStack worldStackOfOne 1 = Some (mkStack (mkLogBase []) [VRef KFmtLog 2]) /\
  Forall (plainBackend worldStackOfOne) [VRef KFmtLog 2] /\
  implementsLogger (VString "not a logger") = false /\
  (exists w1, @Stack_Add testHost 1 ([VRef KFmtLog 2] ++ VString "not a logger" :: [])
                worldStackOfOne = Panic (PTypeAssert (VString "not a logger")) w1 /\
     members 1 w1 = Some [VRef KFmtLog 2]) /\
  (exists w2, @Stack_Set testHost 1 ([VRef KFmtLog 2] ++ VString "not a logger" :: [])
                worldStackOfOne = Panic (PTypeAssert (VString "not a logger")) w2 /\
     members 1 w2 = Some [VRef KFmtLog 2; VString "not a logger"]).
Proof.
  assert (F : Forall (plainBackend worldStackOfOne) [VRef KFmtLog 2]).
  { repeat constructor. exists KFmtLog, 2.
    split; [reflexivity|split; [discriminate|reflexivity]]. }
  split; [reflexivity|]. split; [exact F|]. split; [reflexivity|].
  exact (@Stack_Add_panic_adds_nothing_Set_panic_keeps_all testHost 1 [VRef KFmtLog 2] []
    (VString "not a logger") worldStackOfOne _ eq_refl F eq_refl).
Defined.

(** X7: Add hands over members that are ready to log.  Take a stack whose
    members are backends on which logging returns, and supply backends
    without callbacks, FileLogs fresh from [new] among them, the default path
    being openable.  Add returns, and from then on every Log or severity call
    on the stack returns and adds exactly one write per member, old and new:
    a FileLog never had to be initialised by hand. *)
Theorem Stack_Add_then_logging_reaches_all `{Host} (s : loc) (l : list value)
    (w : World) (o : Stack) :
  getStack w s = Some o ->
  Forall (usable w) (loggers o) ->
  Forall (plainBackend w) l ->
  fs w !! defaultLogPath <> Some NDenied ->
  exists w', Stack_Add s l w = Ok w' /\
    members s w' = Some (loggers o ++ l) /\
    Forall (usable w') (loggers o ++ l) /\
    forall fuel m v, exists w'' ws,
      Stack_call (Logger_call (S fuel)) s m v w' = Ok w'' /\
      writes (trace w'') = writes (trace w') ++ ws /\
      length ws = length (loggers o) + length l.
Proof.
  intros G U F ND. eexists. split; [by apply plain_Add_eq|].
  split; [apply members_store_stack|].
  assert (U' : Forall (usable (store s (OStack (mkStack (Stack_LogBase o) (loggers o ++ l)))
                                 (resetPaths l w))) (loggers o ++ l)).
  { apply Forall_app. split.
    - eapply Forall_impl; [exact U|]. intros y Uy.
      apply usable_after_plain; [by rewrite G|done|by left].
    - apply Forall_forall. intros y Iy.
      apply usable_after_plain; [by rewrite G|done|]. right. split; [|done].
      by eapply Forall_forall in F. }
  split; [exact U'|]. intros fuel m v.
  destruct (backends_fan_out fuel m v _ _ U') as (w'' & ws & E & W & F2).
  exists w'', ws. unfold Stack_call. rewrite getStack_store. cbn [loggers].
  split; [exact E|]. split; [exact W|].
  apply Forall2_length in F2. by rewrite <- F2, length_app.
Qed.

Lemma Stack_Add_then_logging_reaches_all_witness :
  getStack worldStackAndFile 1 = Some (mkStack (mkLogBase []) [VRef KFmtLog 2]) /\
  Forall (usable worldStackAndFile) [VRef KFmtLog 2] /\
  Forall (plainBackend worldStackAndFile) [VRef KFileLog 5] /\
  fs worldStackAndFile !! defaultLogPath <> Some NDenied /\
  exists w' w'' ws,
    @Stack_Add testHost 1 [VRef KFileLog 5] worldStackAndFile = Ok w' /\
    Stack_call (@Logger_call testHost 1) 1 (MSev Notice) [VString "n"] w' = Ok w'' /\
    writes (trace w'') = writes (trace w') ++ ws /\ length ws = 2.
Proof.
  assert (U : Forall (usable worldStackAndFile) [VRef KFmtLog 2]) by (repeat constructor).
  assert (F : Forall (plainBackend worldStackAndFile) [VRef KFileLog 5]).
  { repeat constructor. exists KFileLog, 5.
    split; [reflexivity|split; [discriminate|reflexivity]]. }
  assert (ND : fs worldStackAndFile !! defaultLogPath <> Some NDenied) by (by vm_compute).
  split; [reflexivity|]. split; [exact U|]. split; [exact F|]. split; [exact ND|].
  destruct (@Stack_Add_then_logging_reaches_all testHost 1 [VRef KFileLog 5]
    worldStackAndFile _ eq_refl U F ND) as (w' & E & _ & _ & L).
  destruct (L 0 (MSev Notice) [VString "n"]) as (w'' & ws & E2 & W & Len).
  exists w', w'', ws. split; [exact E|]. split; [exact E2|]. split; [exact W|exact Len].
Defined.

Section MemberStack.
Context `{Host}.

Lemma Stack_Init_plain t w ot :
  getStack w t = Some ot -> initializers (Stack_LogBase ot) = [] ->
  Stack_Init t w = Ok (store t (OStack (mkStack (Stack_LogBase ot) [VNil])) w, None).
Proof. intros G E. unfold Stack_Init. by rewrite G, E. Qed.

Lemma initEach_plain_stack t w ot :
  getStack w t = Some ot -> initializers (Stack_LogBase ot) = [] ->
  initEach [VRef KStack t] w
  = Ok (store t (OStack (mkStack (Stack_LogBase ot) [VNil])) w).
Proof.
  intros G E. cbn [initEach assertLogger]. rewrite bind_Ok.
  unfold Logger_Init. cbn [fst snd]. by rewrite (Stack_Init_plain t w ot G E).
Qed.

Lemma nil_first_panics fuel m v t b rest w :
  getStack w t = Some (mkStack b (VNil :: rest)) ->
  Logger_call (S fuel) m v (KStack, t) w = Panic (PTypeAssert VNil) w.
Proof. intros G. simpl. unfold Stack_call. by rewrite G. Qed.

Lemma getStack_store_ne s t x w : s <> t -> getStack (store s x w) t = getStack w t.
Proof. intros Hne. unfold getStack, store; simpl. by rewrite lookup_insert_ne. Qed.

End MemberStack.

(** X8: a stack handed to Add or Set is re-initialised.  Adding the stack t
    (no callbacks registered) to another stack s runs Init on t, so whatever
    members t had are gone: t is left with the single nil member, s gains t
    as its last member, and from then on every logging call on t panics at
    the type assertion.  Set does the same to t.  A stack added to itself
    ends with the nil member followed by itself; a stack Set to hold only
    itself ends with the nil member alone. *)
Theorem Stack_Add_resets_member_stack `{Host} (s t : loc) (w : World) (os ot : Stack) :
  getStack w s = Some os ->
  getStack w t = Some ot ->
  initializers (Stack_LogBase ot) = [] ->
  (s <> t ->
     (exists w', Stack_Add s [VRef KStack t] w = Ok w' /\
        members t w' = Some [VNil] /\
        members s w' = Some (loggers os ++ [VRef KStack t]) /\
        forall fuel m v,
          Logger_call (S fuel) m v (KStack, t) w' = Panic (PTypeAssert VNil) w')
     /\ (exists w', Stack_Set s [VRef KStack t] w = Ok w' /\
        members t w' = Some [VNil] /\
        members s w' = Some [VRef KStack t]))
  /\ (exists w', Stack_Add t [VRef KStack t] w = Ok w' /\
        members t w' = Some [VNil; VRef KStack t])
  /\ (exists w', Stack_Set t [VRef KStack t] w = Ok w' /\
        members t w' = Some [VNil]).
Proof.
  intros Gs Gt E. split; [intros Hne; split|split].
  - eexists. unfold Stack_Add. rewrite (initEach_plain_stack t w ot Gt E), bind_Ok.
    rewrite getStack_store_ne, Gs by done.
    split; [reflexivity|]. split; [|split; [apply members_store_stack|]].
    + unfold members. by rewrite getStack_store_ne, getStack_store by done.
    + intros fuel m v. eapply nil_first_panics.
      by rewrite getStack_store_ne, getStack_store by done.
  - eexists. unfold Stack_Set. rewrite Gs.
    erewrite initEach_plain_stack; [|by rewrite getStack_store_ne, Gt|done].
    split; [reflexivity|]. split.
    + apply members_store_stack.
    + unfold members. by rewrite getStack_store_ne, getStack_store by done.
  - eexists. unfold Stack_Add. rewrite (initEach_plain_stack t w ot Gt E), bind_Ok.
    rewrite getStack_store. split; [reflexivity|]. apply members_store_stack.
  - eexists. unfold Stack_Set. rewrite Gt.
    erewrite initEach_plain_stack; [|apply getStack_store|done].
    split; [reflexivity|]. apply members_store_stack.
Qed.

Lemma Stack_Add_resets_member_stack_witness :
  getStack worldTwoStacks 1 = Some (mkStack (mkLogBase []) [VRef KFmtLog 2]) /\
  getStack worldTwoStacks 4 = Some (mkStack (mkLogBase []) [VRef KStdLog 3]) /\
  exists w', @Stack_Add testHost 1 [VRef KStack 4] worldTwoStacks = Ok w' /\
    members 4 w' = Some [VNil] /\
    members 1 w' = Some [VRef KFmtLog 2; VRef KStack 4] /\
    @Logger_call testHost 1 (MLog "L") [VString "x"] (KStack, 4) w'
      = Panic (PTypeAssert VNil) w'.
Proof.
  split; [reflexivity|]. split; [reflexivity|].
  destruct (proj1 (@Stack_Add_resets_member_stack testHost 1 4 worldTwoStacks _ _
    eq_refl eq_refl eq_refl)) as [(w' & E & Mt & Ms & P) _]; [discriminate|].
  exists w'. split; [exact E|]. split; [exact Mt|]. split; [exact Ms|apply P].
Defined.

(** X9: a panic stops the fan-out where it happens.  Take a stack whose
    members are backends on which logging returns, then one on which it
    panics at once (a value that is no Logger, such as the nil left by Init;
    a FileLog whose path is still empty; a stack whose first member is nil),
    then any others.  A Log or severity call on the stack panics with that
    panic.  By then each member in front has written its line, one write
    each in order, and no member behind has been called. *)
Theorem Stack_call_stops_at_failing_member `{Host} (fuel : nat) (s : loc) (m : method)
    (v : list value) (w : World) (o : Stack) (pre post : list value) (x : value)
    (p : panic) :
  getStack w s = Some o ->
  loggers o = pre ++ x :: post ->
  Forall (usable w) pre ->
  failing w x p ->
  exists w1 ws,
    Stack_call (Logger_call (S fuel)) s m v w = Panic p w1 /\
    writes (trace w1) = writes (trace w) ++ ws /\
    Forall2 (wroteBy (formatHeader (log_flags w) (log_prefix w)) (level_of m) v) pre ws.
Proof.
  intros G L U X.
  destruct (backends_fan_out fuel m v pre w U) as (w1 & ws & E & W & F2).
  exists w1, ws. split; [|done].
  unfold Stack_call. rewrite G, L, forEachLogger_app, E, bind_Ok.
  apply failing_panics. eapply failing_sameConfig; [|exact X].
  pose proof (forEachLogger_endsIn sameConfig (Logger_call (S fuel) m v) pre
    sameConfig_refl sameConfig_trans
    (fun lg w0 => Logger_call_endsIn sameConfig sameConfig_refl sameConfig_trans
       sameConfig_write
       (fun s0 o0 level v0 w2 G0 _ => sameConfig_afterFileLog s0 o0 level v0 w2 G0)
       (S fuel) m v lg w0) w) as C.
  by rewrite E in C.
Qed.

Lemma Stack_call_stops_at_failing_member_witness :
  getStack worldNilInTheMiddle 1
    = Some (mkStack (mkLogBase []) [VRef KFmtLog 2; VNil; VRef KStdLog 3]) /\
  Forall (usable worldNilInTheMiddle) [VRef KFmtLog 2] /\
  failing worldNilInTheMiddle VNil (PTypeAssert VNil) /\
  exists w1,
    Stack_call (@Logger_call testHost 1) 1 (MLog "L") [VString "x"] worldNilInTheMiddle
      = Panic (PTypeAssert VNil) w1 /\
    writes (trace w1) = [EvWrite Stdout ("L [x]" +:+ nl) true].
Proof.
  assert (U : Forall (usable worldNilInTheMiddle) [VRef KFmtLog 2]) by (repeat constructor).
  assert (X : failing worldNilInTheMiddle VNil (PTypeAssert VNil)) by (by constructor).
  split; [reflexivity|]. split; [exact U|]. split; [exact X|].
  destruct (@Stack_call_stops_at_failing_member testHost 0 1 (MLog "L") [VString "x"]
    worldNilInTheMiddle _ [VRef KFmtLog 2] [VRef KStdLog 3] VNil _ eq_refl eq_refl U X)
    as (w1 & ws & E & W & F2).
  exists w1. split; [exact E|].
  assert (E' : Stack_call (@Logger_call testHost 1) 1 (MLog "L") [VString "x"]
                 worldNilInTheMiddle
               = Panic (PTypeAssert VNil)
                   (emit (EvWrite Stdout ("L [x]" +:+ nl) true) worldNilInTheMiddle))
    by reflexivity.
  assert (W1 : w1 = emit (EvWrite Stdout ("L [x]" +:+ nl) true) worldNilInTheMiddle)
    by congruence.
  rewrite W1. reflexivity.
Defined.

Section OnInitOnly.
Context `{Host}.

Lemma OnInit_setPending lg fns w o :
  deref lg w = Some o -> OnInit lg fns w = Ok (setPending lg.2 fns w).
Proof.
  intros D. rewrite (OnInit_Ok lg fns w o D). f_equal.
  unfold store, setPending, set_heap. f_equal.
  apply deref_Some in D as [L _]. apply map_eq. intros i.
  rewrite lookup_insert, lookup_alter. case_decide; [|done]. subst. by rewrite L.
Qed.

Lemma sameOutput_map g r :
  (forall w, trace (g w) = trace w /\ fs (g w) = fs w /\ fds (g w) = fds w) ->
  sameOutput r (Res_world_map g r).
Proof.
  intros G. destruct r as [a|p a|]; simpl; [| |done];
    destruct (G a) as (T & F & D); done.
Qed.

End OnInitOnly.

(** X10: registering callbacks does nothing until Init runs.  OnInit on a
    valid logger replaces that logger's pending list and nothing else: the
    other loggers' lists, every stack's members and every FileLog's path stay.
    Every logging call made afterwards, on any logger, has the outcome it
    would have had without the registration: the same return or panic, the
    same system calls, the same files. *)
Theorem OnInit_alone_changes_no_logging `{Host} (lg : Logger) (fns : list value)
    (w w1 : World) :
  OnInit lg fns w = Ok w1 ->
  pending lg w1 = Some fns /\
  (forall lg', lg'.2 <> lg.2 -> pending lg' w1 = pending lg' w) /\
  (forall s, members s w1 = members s w) /\
  (forall s, logPath <$> getFileLog w1 s = logPath <$> getFileLog w s) /\
  forall fuel m v lg',
    sameOutput (Logger_call fuel m v lg' w) (Logger_call fuel m v lg' w1).
Proof.
  intros E. pose proof (pending_OnInit lg fns w w1 E) as P.
  assert (D : exists o, deref lg w = Some o).
  { unfold OnInit in E. destruct (deref lg w) as [o|]; [by exists o|done]. }
  destruct D as [o D].
  assert (W1 : w1 = setPending lg.2 fns w).
  { rewrite (OnInit_setPending lg fns w o D) in E. by injection E. }
  subst w1. split; [exact P|]. split; [|split; [|split]].
  - intros lg' Hne. unfold pending, deref. rewrite heap_setPending. unfold rebase.
    destruct (decide (lg.2 = lg'.2)) as [Eq|_]; [by destruct Hne|].
    by destruct (heap w !! lg'.2).
  - intros s. unfold members. rewrite getStack_setPending.
    destruct (getStack w s) as [x|]; [|done]. simpl. by case_decide.
  - intros s. rewrite getFileLog_setPending.
    destruct (getFileLog w s) as [x|]; [|done]. simpl. by case_decide.
  - intros fuel m v lg'. rewrite Logger_call_setPending. by apply sameOutput_map.
Qed.

Lemma OnInit_alone_changes_no_logging_witness :
  exists w1, OnInit (KFileLog, 3) [tlCallback] worldFileLog = Ok w1 /\
    pending (KFileLog, 3) w1 = Some [tlCallback] /\
    logPath <$> getFileLog w1 3 = Some defaultLogPath /\
    sameOutput (@Logger_call testHost 1 (MSev Info) [VString "x"] (KFileLog, 3) worldFileLog)
               (@Logger_call testHost 1 (MSev Info) [VString "x"] (KFileLog, 3) w1).
Proof.
  eexists. split; [reflexivity|].
  destruct (@OnInit_alone_changes_no_logging testHost (KFileLog, 3) [tlCallback]
    worldFileLog _ eq_refl) as (P & _ & _ & LP & S).
  split; [exact P|]. split; [exact (LP 3)|]. apply S.
Defined.

(** ** Nested stacks *)

Section Nested.
Context `{Host}.

Lemma sameConfig_getStack w w1 t : sameConfig w w1 -> getStack w1 t = getStack w t.
Proof.
  intros C. pose proof (sameConfig_lookup w w1 t C) as L. unfold getStack.
  destruct (heap w !! t) as [o|], (heap w1 !! t) as [o'|]; try done.
  destruct o as [x|x|x|x], o' as [y|y|y|y]; simpl in L; try done.
  by injection L as ->.
Qed.

Lemma keepsReady_refl w : keepsReady w w.
Proof. done. Qed.

Lemma keepsReady_trans a b c : keepsReady a b -> keepsReady b c -> keepsReady a c.
Proof.
  intros (U1 & S1 & F1 & P1) (U2 & S2 & F2 & P2).
  split; [auto|]. split; [intros t; by rewrite S2, S1|]. split; congruence.
Qed.

Lemma ready_keeps n : forall w w1 y, keepsReady w w1 -> ready w n y -> ready w1 n y.
Proof.
  induction n as [|n IH]; intros w w1 y K R; destruct R as [U|R].
  - left. by apply K.
  - done.
  - left. by apply K.
  - destruct R as (t & o & -> & G & F). right. exists t, o.
    pose proof K as (KU & KS & KF & KP). split; [done|]. split; [by rewrite KS|].
    eapply Forall_impl; [exact F|]. intros z Rz. by eapply IH.
Qed.

Lemma leaves_keeps n : forall w w1 y, keepsReady w w1 -> leaves n w1 y = leaves n w y.
Proof.
  induction n as [|n IH]; intros w w1 y K; destruct y as [| | | | |[] t]; simpl; try done.
  destruct K as (KU & KS & KF & KP). rewrite KS.
  destruct (getStack w t) as [o|]; [|done].
  apply flat_map_ext. intros z. by apply IH.
Qed.

Lemma backend_step_keeps fuel m v x w :
  usable w x ->
  exists k l w1 e, x = VRef k l /\
    Logger_call (S fuel) m v (k, l) w = Ok w1 /\
    writes (trace w1) = writes (trace w) ++ [e] /\
    wroteBy (formatHeader (log_flags w) (log_prefix w)) (level_of m) v x e /\
    keepsReady w w1.
Proof.
  intros U. destruct (backend_call_step fuel m v x w U)
    as (k & l & w1 & e & -> & E & W & WB & FL & PR & Keep).
  exists k, l, w1, e. repeat split; try done.
  intros t. apply sameConfig_getStack.
  pose proof (Logger_call_endsIn sameConfig sameConfig_refl sameConfig_trans
    sameConfig_write
    (fun s0 o0 level v0 w2 G0 _ => sameConfig_afterFileLog s0 o0 level v0 w2 G0)
    (S fuel) m v (k, l) w) as C.
  by rewrite E in C.
Qed.

Lemma leaves_backend n w x : usable w x -> leaves n w x = [x].
Proof. destruct n, x as [| | | | |[] ?]; done. Qed.

(** Members that are ready one after the other: the call returns and the
    writes are those of the leaves, in order. *)
Lemma members_run n m v :
  (forall x w, ready w n x ->
     exists k l w' ws, x = VRef k l /\
       Logger_call (S n) m v (k, l) w = Ok w' /\
       writes (trace w') = writes (trace w) ++ ws /\
       Forall2 (wroteBy (formatHeader (log_flags w) (log_prefix w)) (level_of m) v)
               (leaves n w x) ws /\
       keepsReady w w') ->
  forall ms w, Forall (ready w n) ms ->
    exists w' ws,
      forEachLogger (Logger_call (S n) m v) ms w = Ok w' /\
      writes (trace w') = writes (trace w) ++ ws /\
      Forall2 (wroteBy (formatHeader (log_flags w) (log_prefix w)) (level_of m) v)
              (flat_map (leaves n w) ms) ws /\
      keepsReady w w'.
Proof.
  intros Step. induction ms as [|x rest IH]; intros w F.
  - exists w, []. simpl. rewrite app_nil_r. repeat split; done || constructor.
  - apply Forall_cons in F as [R F].
    destruct (Step x w R) as (k & l & w1 & ws1 & -> & E & W & F2 & K).
    destruct (IH w1) as (w' & ws & E' & W' & F2' & K').
    { eapply Forall_impl; [exact F|]. intros z. by apply ready_keeps. }
    exists w', (ws1 ++ ws). split; [|split; [|split]].
    + cbn [forEachLogger assertLogger]. by rewrite bind_Ok, E, bind_Ok.
    + by rewrite W', W, app_assoc.
    + cbn [flat_map]. apply Forall2_app; [exact F2|].
      pose proof K as (_ & KS & KF & KP). rewrite <- KF, <- KP.
      erewrite flat_map_ext; [exact F2'|].
      intros z. symmetry. by apply leaves_keeps.
    + by eapply keepsReady_trans.
Qed.

Lemma nested_run m v n : forall x w, ready w n x ->
  exists k l w' ws, x = VRef k l /\
    Logger_call (S n) m v (k, l) w = Ok w' /\
    writes (trace w') = writes (trace w) ++ ws /\
    Forall2 (wroteBy (formatHeader (log_flags w) (log_prefix w)) (level_of m) v)
            (leaves n w x) ws /\
    keepsReady w w'.
Proof.
  induction n as [|n IH]; intros x w R; destruct R as [U|R].
  - destruct (backend_step_keeps 0 m v x w U) as (k & l & w1 & e & -> & E & W & WB & K).
    exists k, l, w1, [e]. rewrite (leaves_backend 0 w _ U).
    split; [done|]. split; [exact E|]. split; [exact W|]. split; [by constructor|exact K].
  - done.
  - destruct (backend_step_keeps (S n) m v x w U) as (k & l & w1 & e & -> & E & W & WB & K).
    exists k, l, w1, [e]. rewrite (leaves_backend (S n) w _ U).
    split; [done|]. split; [exact E|]. split; [exact W|]. split; [by constructor|exact K].
  - destruct R as (t & o & -> & G & F).
    destruct (members_run n m v IH (loggers o) w F) as (w' & ws & E & W & F2 & K).
    exists KStack, t, w', ws. split; [done|]. split; [|split; [done|split; [|done]]].
    + cbn [Logger_call fst snd]. unfold Stack_call. by rewrite G.
    + cbn [leaves]. by rewrite G.
Qed.

End Nested.

(** X11: nested stacks fan out depth first.  Take a logger on which
    logging returns with stacks nested at most n deep: a backend (FmtLog,
    StdLog, FileLog with an openable path) or a valid stack whose members are
    again such loggers.  Every Log or severity call on it returns, given
    fuel for the depth, and adds exactly one write for each backend it
    reaches, in depth-first order of the members, a backend that is reached
    several times writing each time. *)
Theorem Logger_call_nested_depth_first `{Host} (n : nat) (m : method)
    (v : list value) (lg : Logger) (w : World) :
  ready w n (Logger_value lg) ->
  exists w' ws,
    Logger_call (S n) m v lg w = Ok w' /\
    writes (trace w') = writes (trace w) ++ ws /\
    length ws = length (leaves n w (Logger_value lg)) /\
    Forall2 (wroteBy (formatHeader (log_flags w) (log_prefix w)) (level_of m) v)
            (leaves n w (Logger_value lg)) ws.
Proof.
  intros R. destruct (nested_run m v n _ w R) as (k & l & w' & ws & E0 & E & W & F2 & _).
  destruct lg as [k0 l0]. injection E0 as <- <-.
  exists w', ws. split; [exact E|]. split; [exact W|]. split; [|exact F2].
  symmetry. by eapply Forall2_length.
Qed.

Lemma Logger_call_nested_depth_first_witness :
  ready worldNested 2 (Logger_value (KStack, 1)) /\
  leaves 2 worldNested (VRef KStack 1) = [VRef KFmtLog 2; VRef KStdLog 3] /\
  exists w' ws,
    @Logger_call testHost 3 (MSev Warning) [VString "x"] (KStack, 1) worldNested = Ok w' /\
    writes (trace w') = writes (trace worldNested) ++ ws /\
    length ws = 2.
Proof.
  assert (R : ready worldNested 2 (Logger_value (KStack, 1))).
  { cbn [ready Logger_value fst snd]. right.
    exists 1, (mkStack (mkLogBase []) [VRef KStack 4]).
    split; [reflexivity|]. split; [reflexivity|]. cbn [loggers].
    constructor; [|constructor]. cbn [ready]. right.
    exists 4, (mkStack (mkLogBase []) [VRef KFmtLog 2; VRef KStdLog 3]).
    split; [reflexivity|]. split; [reflexivity|]. cbn [loggers].
    constructor; [cbn [ready]; left; exact I|].
    constructor; [cbn [ready]; left; exact I|constructor]. }
  split; [exact R|]. split; [reflexivity|].
  destruct (@Logger_call_nested_depth_first testHost 2 (MSev Warning) [VString "x"]
    (KStack, 1) worldNested R) as (w' & ws & E & W & L & _).
  exists w', ws. split; [exact E|]. split; [exact W|exact L].
Defined.

(** ** The helpers of the test file *)

Section Capture.
Context `{Host}.

Lemma formatHeader_no_flags prefix : formatHeader 0 prefix = prefix.
Proof.
  unfold formatHeader. change (Z.land 0 Lmsgprefix =? 0)%Z with true.
  change (Z.land 0 Lfields =? 0)%Z with true. cbv iota.
  change ("" +:+ "") with "". apply string_app_nil_r.
Qed.

Lemma drop_trace_emit (t : list event) e : drop (length t) (t ++ [e]) = [e].
Proof. by rewrite drop_app_length. Qed.

Lemma captureOutput_StdLog buf fuel m v l w :
  captureOutput buf (Logger_call (S fuel) m v (KStdLog, l)) w =
  Ok (log_SetOutput Stderr
        (emit (EvWrite (OtherW buf) (log_prefix w +:+ Sprintln (level_of m) v) true)
           (log_SetFlags 0%Z (log_SetOutput (OtherW buf) w))),
      log_prefix w +:+ Sprintln (level_of m) v).
Proof.
  unfold captureOutput. cbn [Logger_call fst snd]. rewrite StdLog_call_eq, bind_Ok.
  unfold log_Println. cbn [log_SetFlags log_SetOutput set_log_out log_out log_flags
    log_prefix write]. rewrite formatHeader_no_flags.
  cbn [emit trace]. rewrite drop_trace_emit. cbn [written].
  rewrite decide_True by done. change (written (OtherW buf) []) with "".
  by rewrite string_app_nil_r.
Qed.

Lemma captureOutput_FmtLog buf fuel m v l w :
  captureOutput buf (Logger_call (S fuel) m v (KFmtLog, l)) w =
  Ok (log_SetOutput Stderr
        (emit (EvWrite Stdout (Sprintln (level_of m) v) true)
           (log_SetFlags 0%Z (log_SetOutput (OtherW buf) w))),
      "").
Proof.
  unfold captureOutput. cbn [Logger_call fst snd]. rewrite FmtLog_call_eq, bind_Ok.
  unfold fmt_Println. cbn [write emit trace log_SetFlags log_SetOutput set_log_out].
  by rewrite drop_trace_emit.
Qed.

Lemma expected_line sv :
  "" +:+ Sprintln (label sv) testMessage = label sv +:+ " [This is a message]" +:+ nl.
Proof. by destruct sv. Qed.

Lemma expected_not_empty sv : "" <> label sv +:+ " [This is a message]" +:+ nl.
Proof. by destruct sv. Qed.

Lemma testLevels_StdLog buf fuel l svs : forall failed w,
  log_prefix w = "" ->
  exists w', testLevels (S fuel) buf (KStdLog, l) svs failed w = Ok (w', failed) /\
    log_prefix w' = "".
Proof.
  induction svs as [|sv rest IH]; intros failed w P; [by exists w|].
  cbn [testLevels]. rewrite captureOutput_StdLog, bind_Ok. cbn [fst snd level_of].
  rewrite P, expected_line. unfold testOutput. rewrite decide_True by done.
  apply IH. done.
Qed.

Lemma testLevels_FmtLog buf fuel l sv svs : forall failed w,
  exists w', testLevels (S fuel) buf (KFmtLog, l) (sv :: svs) failed w = Ok (w', true).
Proof.
  revert sv. induction svs as [|sv' rest IH]; intros sv failed w.
  - cbn [testLevels]. rewrite captureOutput_FmtLog, bind_Ok. cbn [fst snd].
    unfold testOutput. rewrite decide_False by apply expected_not_empty. by eexists.
  - cbn [testLevels]. rewrite captureOutput_FmtLog, bind_Ok. cbn [fst snd].
    unfold testOutput at 2. rewrite decide_False by apply expected_not_empty.
    apply (IH sv' true).
Qed.

End Capture.

Section CaptureStack.
Context `{Host}.

Lemma emitAll_emit e es w : emitAll es (emit e w) = emitAll (e :: es) w.
Proof. unfold emitAll, emit; simpl. by rewrite <- app_assoc. Qed.

Lemma emitAll_emitAll es1 es2 w : emitAll es2 (emitAll es1 w) = emitAll (es1 ++ es2) w.
Proof. unfold emitAll; simpl. by rewrite <- app_assoc. Qed.

Lemma Logger_call_FmtLog fuel m v l w :
  Logger_call (S fuel) m v (KFmtLog, l) w
  = Ok (emit (EvWrite Stdout (Sprintln (level_of m) v) true) w).
Proof. cbn [Logger_call fst snd]. by rewrite FmtLog_call_eq. Qed.

Lemma Logger_call_StdLog fuel m v l w :
  Logger_call (S fuel) m v (KStdLog, l) w = Ok (log_Println (level_of m) v w).
Proof. cbn [Logger_call fst snd]. by rewrite StdLog_call_eq. Qed.

Lemma fmt_run fuel m v ms : forall w,
  Forall isFmtLog ms ->
  forEachLogger (Logger_call (S fuel) m v) ms w =
  Ok (emitAll (map (fun _ => EvWrite Stdout (Sprintln (level_of m) v) true) ms) w).
Proof.
  induction ms as [|x rest IH]; intros w F.
  - unfold emitAll; simpl. rewrite app_nil_r. by destruct w.
  - apply Forall_cons in F as [[l ->] F].
    cbn [forEachLogger assertLogger map].
    rewrite bind_Ok, Logger_call_FmtLog, bind_Ok, (IH _ F).
    by rewrite emitAll_emit.
Qed.

Lemma written_fmt to line ms :
  to <> Stdout ->
  written to (map (fun _ : value => EvWrite Stdout line true) ms) = "".
Proof.
  intros Hne. induction ms as [|x rest IH]; simpl; [done|].
  rewrite decide_False by congruence. exact IH.
Qed.

Lemma written_app to es1 es2 : written to (es1 ++ es2) = written to es1 +:+ written to es2.
Proof.
  induction es1 as [|e rest IH]; simpl; [done|].
  destruct e as [| to' data [|] |]; try done.
  case_decide; [|done]. by rewrite IH, string_app_assoc.
Qed.

(** A stack of FmtLogs around one StdLog, inside [captureOutput]. *)
Lemma captureOutput_stack buf fuel m v s l pre post w o :
  getStack w s = Some o ->
  loggers o = pre ++ VRef KStdLog l :: post ->
  Forall isFmtLog pre -> Forall isFmtLog post ->
  exists es,
    captureOutput buf (Logger_call (S (S fuel)) m v (KStack, s)) w =
    Ok (log_SetOutput Stderr
          (emitAll es (log_SetFlags 0%Z (log_SetOutput (OtherW buf) w))),
        log_prefix w +:+ Sprintln (level_of m) v).
Proof.
  intros G L Fpre Fpost.
  exists (map (fun _ => EvWrite Stdout (Sprintln (level_of m) v) true) pre
          ++ EvWrite (OtherW buf) (log_prefix w +:+ Sprintln (level_of m) v) true
          :: map (fun _ => EvWrite Stdout (Sprintln (level_of m) v) true) post).
  unfold captureOutput.
  change (Logger_call (S (S fuel)) m v (KStack, s)
            (log_SetFlags 0 (log_SetOutput (OtherW buf) w)))
    with (Stack_call (Logger_call (S fuel)) s m v
            (log_SetFlags 0 (log_SetOutput (OtherW buf) w))).
  unfold Stack_call.
  change (getStack (log_SetFlags 0 (log_SetOutput (OtherW buf) w)) s) with (getStack w s).
  rewrite G, L, forEachLogger_app, (fmt_run _ _ _ pre _ Fpre), bind_Ok.
  cbn [forEachLogger assertLogger].
  rewrite bind_Ok, Logger_call_StdLog, bind_Ok.
  unfold log_Println. cbn [emitAll log_SetFlags log_SetOutput set_log_out log_out
    log_flags log_prefix write]. rewrite formatHeader_no_flags.
  rewrite (fmt_run _ _ _ post _ Fpost), bind_Ok.
  unfold emit, emitAll. cbn [heap fs fds log_out log_flags log_prefix trace
    log_SetOutput set_log_out].
  rewrite <- !app_assoc. cbn [app]. rewrite drop_app_length.
  f_equal. f_equal. rewrite written_app, written_fmt by done.
  cbn [written]. rewrite decide_True by done. rewrite written_fmt by done.
  change ("" +:+ ?x) with x. by rewrite string_app_nil_r.
Qed.

Lemma testLevels_stack buf fuel s l pre post o svs : forall failed w,
  getStack w s = Some o ->
  loggers o = pre ++ VRef KStdLog l :: post ->
  Forall isFmtLog pre -> Forall isFmtLog post ->
  log_prefix w = "" ->
  exists w', testLevels (S (S fuel)) buf (KStack, s) svs failed w = Ok (w', failed).
Proof.
  induction svs as [|sv rest IH]; intros failed w G L Fpre Fpost P; [by exists w|].
  cbn [testLevels].
  destruct (captureOutput_stack buf fuel (MSev sv) testMessage s l pre post w o G L
    Fpre Fpost) as [es E].
  rewrite E, bind_Ok. cbn [fst snd level_of].
  rewrite P, expected_line. unfold testOutput. rewrite decide_True by done.
  by apply IH.
Qed.

End CaptureStack.

(** X12: what captureOutput captures and what it leaves behind.  Around a
    logging call on a StdLog it returns exactly the std logger's prefix
    followed by the line of the call, without date or time, whatever the
    flags and the output were before.  Around a logging call on a FmtLog it
    returns the empty string: what goes to standard output is not captured.
    Around a logging call on any logger it leaves the std logger writing to
    standard error with flags 0: the caller's output and flags are not
    restored. *)
Theorem captureOutput_sees_std_logger_only `{Host} (buf fuel : nat) (m : method)
    (v : list value) (l : loc) (w : World) :
  (exists w', captureOutput buf (Logger_call (S fuel) m v (KStdLog, l)) w
              = Ok (w', log_prefix w +:+ Sprintln (level_of m) v))
  /\ (exists w', captureOutput buf (Logger_call (S fuel) m v (KFmtLog, l)) w = Ok (w', ""))
  /\ (forall lg w' out,
        captureOutput buf (Logger_call fuel m v lg) w = Ok (w', out) ->
        log_out w' = Stderr /\ log_flags w' = 0%Z /\ log_prefix w' = log_prefix w).
Proof.
  split; [eexists; apply captureOutput_StdLog|].
  split; [eexists; apply captureOutput_FmtLog|].
  intros lg w' out E. unfold captureOutput in E.
  apply bind_is_Ok in E as (w3 & E3 & E). injection E as <- _.
  pose proof (Logger_call_endsIn sameConfig sameConfig_refl sameConfig_trans
    sameConfig_write
    (fun s0 o0 level v0 w2 G0 _ => sameConfig_afterFileLog s0 o0 level v0 w2 G0)
    fuel m v lg (log_SetFlags 0 (log_SetOutput (OtherW buf) w))) as C.
  rewrite E3 in C. destruct C as (_ & FL & PR).
  split; [done|]. split; [exact FL|exact PR].
Qed.

Lemma captureOutput_sees_std_logger_only_witness :
  exists w' out,
    captureOutput 0 (@Logger_call testHost 1 (MLog "L") [VString "x"] (KFileLog, 3))
      worldFileLog = Ok (w', out) /\
    out = "" /\ fs w' !! defaultLogPath = Some (NFile ("L [x]" +:+ nl)) /\
    log_out w' = Stderr /\ log_flags w' = 0%Z.
Proof.
  eexists. eexists. split; [reflexivity|]. split; [reflexivity|]. split; [reflexivity|].
  destruct (proj2 (proj2 (@captureOutput_sees_std_logger_only testHost 0 1 (MLog "L")
    [VString "x"] 3 worldFileLog)) (KFileLog, 3) _ _ eq_refl) as (LO & FL & _).
  split; [exact LO|exact FL].
Defined.

(** X13: what testLogLevels accepts.  With an empty std-logger prefix it
    records no failure for a StdLog, and none for a stack that holds one
    StdLog among any number of FmtLogs; for a FmtLog it always records a
    failure, since nothing a FmtLog writes is captured. *)
Theorem testLogLevels_passes_on_StdLog_fails_on_FmtLog `{Host} (buf fuel : nat)
    (l : loc) (failed : bool) (w : World) :
  (log_prefix w = "" ->
     exists w', testLogLevels (S fuel) buf (KStdLog, l) failed w = Ok (w', failed))
  /\ (exists w', testLogLevels (S fuel) buf (KFmtLog, l) failed w = Ok (w', true))
  /\ (forall s o pre post l',
        log_prefix w = "" ->
        getStack w s = Some o ->
        loggers o = pre ++ VRef KStdLog l' :: post ->
        Forall isFmtLog pre -> Forall isFmtLog post ->
        exists w', testLogLevels (S (S fuel)) buf (KStack, s) failed w = Ok (w', failed)).
Proof.
  split; [|split].
  - intros P. destruct (testLevels_StdLog buf fuel l
      [Emergency; Alert; Critical; Error; Warning; Notice; Info; Debug] failed w P)
      as (w' & E & _). by exists w'.
  - apply testLevels_FmtLog.
  - intros s o pre post l' P G L Fpre Fpost. by eapply testLevels_stack.
Qed.

Lemma testLogLevels_passes_on_StdLog_fails_on_FmtLog_witness :
  log_prefix worldScenarioC = "" /\
  getStack worldScenarioC 1 = Some (mkStack (mkLogBase []) [VRef KFmtLog 2; VRef KStdLog 3]) /\
  (exists w', @testLogLevels testHost 1 0 (KStdLog, 3) false worldScenarioC = Ok (w', false)) /\
  (exists w', @testLogLevels testHost 2 0 (KStack, 1) false worldScenarioC = Ok (w', false)).
Proof.
  split; [reflexivity|]. split; [reflexivity|].
  destruct (@testLogLevels_passes_on_StdLog_fails_on_FmtLog testHost 0 0 3 false
    worldScenarioC) as (S1 & _ & S3).
  split; [exact (S1 eq_refl)|].
  apply (S3 1 _ [VRef KFmtLog 2] [] 3 eq_refl eq_refl eq_refl).
  - repeat constructor. by exists 2.
  - constructor.
Defined.

(** ** Callbacks that set the path *)

Section SetPath.
Context `{Host}.

Lemma runInitializers_set_paths s b h (gps : list (fid * string)) : forall cur w,
  Forall (fun gp => setsPathTo gp.1 gp.2) gps ->
  runInitializers SigFileLog msgFileLog (VRef KFileLog s)
    (map (fun gp => VFunc SigFileLog gp.1) gps)
    (store s (OFileLog (mkFileLog b h cur)) w)
  = Ok (store s (OFileLog (mkFileLog b h (lastPath cur (map snd gps)))) w, None).
Proof.
  induction gps as [|[g p] rest IH]; intros cur w F; [done|].
  apply Forall_cons in F as [S F]. cbn [map runInitializers assertFunc fst snd].
  rewrite decide_True by done.
  rewrite (S s _ (mkFileLog b h cur))
    by (unfold getFileLog, store; simpl; by rewrite lookup_insert_eq).
  rewrite bind_Ok, store_store. cbn [FileLog_LogBase f]. by apply IH.
Qed.

End SetPath.

(** X14: callbacks override the default path, the last one winning.  On a
    valid FileLog whose registered callbacks are functions of a FileLog
    pointer that each set the path, Init returns nil and changes nothing but
    the path, which is then the one set by the last callback (the default
    when there is none).  A Log call made afterwards opens that path and
    appends its line there. *)
Theorem FileLog_Init_last_callback_sets_path `{Host} (s : loc) (w : World)
    (o : FileLog) (gps : list (fid * string)) :
  getFileLog w s = Some o ->
  initializers (FileLog_LogBase o) = map (fun gp => VFunc SigFileLog gp.1) gps ->
  Forall (fun gp => setsPathTo gp.1 gp.2) gps ->
  let p := lastPath defaultLogPath (map snd gps) in
  let w' := store s (OFileLog (mkFileLog (FileLog_LogBase o) (f o) p)) w in
  FileLog_Init s w = Ok (w', None) /\
  forall level v, openable w p ->
    exists w'', FileLog_Log s level v w' = Ok w'' /\
      trace w'' = trace w ++
        [EvOpen p (length (fds w));
         EvWrite (FileW (length (fds w)))
           (formatHeader (log_flags w) (log_prefix w) +:+ Sprintln level v) true;
         EvClose (length (fds w))] /\
      fs w'' !! p = Some (NFile (file_content (fs w !! p)
           +:+ formatHeader (log_flags w) (log_prefix w) +:+ Sprintln level v)).
Proof.
  intros G E F p w'. split.
  - unfold FileLog_Init. rewrite G, E. by apply runInitializers_set_paths.
  - intros level v O. eexists. split.
    + apply (FileLog_Log_openable s (mkFileLog (FileLog_LogBase o) (f o) p)).
      * unfold getFileLog, w', store; simpl. by rewrite lookup_insert_eq.
      * exact O.
    + unfold afterFileLog; cbn [trace fs logPath]. split; [done|].
      by rewrite lookup_insert_eq.
Qed.

Lemma FileLog_Init_last_callback_sets_path_witness :
  getFileLog worldTlCallback 3 = Some (mkFileLog (mkLogBase [tlCallback]) None "") /\
  Forall (fun gp : fid * string => @setsPathTo testHost gp.1 gp.2) [(0, testPath)] /\
  @FileLog_Init testHost 3 worldTlCallback
    = Ok (store 3 (OFileLog (mkFileLog (mkLogBase [tlCallback]) None testPath))
            worldTlCallback, None).
Proof.
  assert (F : Forall (fun gp : fid * string => @setsPathTo testHost gp.1 gp.2)
                [(0, testPath)]).
  { repeat constructor. intros s w o G. simpl. unfold testCall. by rewrite G. }
  split; [reflexivity|]. split; [exact F|].
  exact (proj1 (@FileLog_Init_last_callback_sets_path testHost 3 worldTlCallback
    (mkFileLog (mkLogBase [tlCallback]) None "") [(0, testPath)] eq_refl eq_refl F)).
Defined.

(** X15: how a callback has to populate a stack.  Take a valid stack with
    one registered callback of type func(s Logger) and backends l without
    callbacks.  If the callback does what Set(l) does, Init returns nil and
    the members are exactly l.  If it does what Add(l...) does, Init returns
    nil with the nil member in front of l, and every logging call on the stack
    panics at the type assertion. *)
Theorem Stack_Init_populating_callback `{Host} (s : loc) (w : World) (o : Stack)
    (g : fid) (l : list value) :
  getStack w s = Some o ->
  initializers (Stack_LogBase o) = [VFunc SigLogger g] ->
  Forall (plainBackend w) l ->
  let w1 := store s (OStack (mkStack (Stack_LogBase o) [VNil])) w in
  (call g (VRef KStack s) w1 = Stack_Set s l w1 ->
     exists w', Stack_Init s w = Ok (w', None) /\ members s w' = Some l)
  /\ (call g (VRef KStack s) w1 = Stack_Add s l w1 ->
     exists w', Stack_Init s w = Ok (w', None) /\
       members s w' = Some (VNil :: l) /\
       forall fuel m v,
         Logger_call (S fuel) m v (KStack, s) w' = Panic (PTypeAssert VNil) w').
Proof.
  intros G E F w1.
  assert (G1 : getStack w1 s = Some (mkStack (Stack_LogBase o) [VNil]))
    by apply getStack_store.
  assert (F1 : Forall (plainBackend w1) l).
  { eapply Forall_impl; [exact F|]. intros x. by apply plainBackend_store_stack. }
  assert (I : Stack_Init s w = (w' ← call g (VRef KStack s) w1; Ok (w', None))).
  { unfold Stack_Init. rewrite G, E. cbn [runInitializers assertFunc].
    rewrite decide_True by done. reflexivity. }
  split; intros C; rewrite I, C.
  - rewrite (plain_Set_eq s l w1 _ G1 F1), bind_Ok. eexists. split; [done|].
    apply members_store_stack.
  - rewrite (plain_Add_eq s l w1 _ G1 F1), bind_Ok. eexists. split; [done|].
    cbn [loggers app]. split; [apply members_store_stack|].
    intros fuel m v. eapply nil_first_panics. apply getStack_store.
Qed.

Lemma Stack_Init_populating_callback_witness :
  getStack worldPopulating 1
    = Some (mkStack (mkLogBase [VFunc SigLogger 0]) [VRef KStdLog 3]) /\
  Forall (plainBackend worldPopulating) [VRef KFmtLog 2] /\
  exists w', @Stack_Init populatingHost 1 worldPopulating = Ok (w', None) /\
    members 1 w' = Some [VRef KFmtLog 2].
Proof.
  assert (F : Forall (plainBackend worldPopulating) [VRef KFmtLog 2]).
  { repeat constructor. exists KFmtLog, 2.
    split; [reflexivity|split; [discriminate|reflexivity]]. }
  split; [reflexivity|]. split; [exact F|].
  apply (proj1 (@Stack_Init_populating_callback populatingHost 1 worldPopulating _ 0
    [VRef KFmtLog 2] eq_refl eq_refl F)).
  reflexivity.
Defined.
